(** * Recurring classes of a school: series creation, cascading mutation,
      enrollment and profile update

    A shallow embedding of the state-management module (the zustand store
    [useStore]) together with the two callers the properties refer to
    ([ClassCard], [UserProfile]).  The asynchronous actions become
    computations in a state-and-exception monad over a [World.t] that holds
    the published store state, the document collections, the identity
    account, the trace of repository calls and the console. *)

From Stdlib Require Import ZArith String Ascii.
From stdpp Require Import gmap strings list fin_maps pretty.
From Equations Require Import Equations.

Local Open Scope Z_scope.
Local Open Scope string_scope.
Local Open Scope list_scope.

#[local] Set Warnings "-clear-no-such-hyp".

(* ===================================================================== *)
(** ** Data model ([types/index.ts]) *)
(* ===================================================================== *)

Inductive Role := student | teacher.
Inductive Level := beginner | intermediate | advanced.

Module User.
Record t := mk {
  id : string;
  email : string;
  name : string;
  role : Role;
  schoolId : option string;
}.
End User.

Module School.
Record t := mk {
  id : string;
  name : string;
  address : string;
  email : string;
  logo : option string;
  instagram : option string;
  teacherIds : list string;
}.
End School.

(** [Class]: [datetime] is an ISO string, [number]s are integers,
    an absent optional field and [null] are both [None]. *)
Module Class.
Record t := mk {
  id : string;
  title : string;
  teacherId : string;
  datetime : string;
  duration : Z;
  maxStudents : Z;
  enrolledStudents : list string;
  isRecurring : bool;
  level : Level;
  description : option string;
  baseId : option string;
  schoolId : string;
}.

Definition withEnrolled (f : list string → list string) (c : t) : t :=
  mk (id c) (title c) (teacherId c) (datetime c) (duration c)
     (maxStudents c) (f (enrolledStudents c)) (isRecurring c) (level c)
     (description c) (baseId c) (schoolId c).
End Class.

(** [Omit<Class, 'id'>], the argument of [addClass]. *)
Module NewClass.
Record t := mk {
  title : string;
  teacherId : string;
  datetime : string;
  duration : Z;
  maxStudents : Z;
  enrolledStudents : list string;
  isRecurring : bool;
  level : Level;
  description : option string;
  baseId : option string;
  schoolId : string;
}.

(** [{ ...newClass, id }] *)
Definition withId (n : t) (i : string) : Class.t :=
  Class.mk i (title n) (teacherId n) (datetime n) (duration n)
    (maxStudents n) (enrolledStudents n) (isRecurring n) (level n)
    (description n) (baseId n) (schoolId n).
End NewClass.

(** [Partial<Class>], the argument of [updateClass]: [None] is a field the
    patch does not mention.  For the two optional fields the inner option is
    the value written. *)
Module Patch.
Record t := mk {
  id : option string;
  title : option string;
  teacherId : option string;
  datetime : option string;
  duration : option Z;
  maxStudents : option Z;
  enrolledStudents : option (list string);
  isRecurring : option bool;
  level : option Level;
  description : option (option string);
  baseId : option (option string);
  schoolId : option string;
}.

Definition empty : t :=
  mk None None None None None None None None None None None None.

(** The fields of the patch replace those of the document. *)
Definition apply (p : t) (c : Class.t) : Class.t :=
  Class.mk
    (default (Class.id c) (id p))
    (default (Class.title c) (title p))
    (default (Class.teacherId c) (teacherId p))
    (default (Class.datetime c) (datetime p))
    (default (Class.duration c) (duration p))
    (default (Class.maxStudents c) (maxStudents p))
    (default (Class.enrolledStudents c) (enrolledStudents p))
    (default (Class.isRecurring c) (isRecurring p))
    (default (Class.level c) (level p))
    (default (Class.description c) (description p))
    (default (Class.baseId c) (baseId p))
    (default (Class.schoolId c) (schoolId p)).
End Patch.

(** JavaScript truthiness of an optional string: [null], [undefined] and the
    empty string are falsy.  Returns the string when it is truthy. *)
Definition truthy (o : option string) : option string :=
  match o with
  | Some s => if String.eqb s "" then None else Some s
  | None => None
  end.

(* ===================================================================== *)
(** ** The document store (Firestore) as the module uses it *)
(* ===================================================================== *)

(** The data of an [updateDoc] / [batch.update] on a class document. *)
Inductive UpdateData :=
| SetFields (p : Patch.t)          (* updatedClass *)
| ArrayUnion (userId : string)     (* { enrolledStudents: arrayUnion(userId) } *)
| ArrayRemove (userId : string).   (* { enrolledStudents: arrayRemove(userId) } *)

(** [arrayUnion]: the element is appended unless it is already there. *)
Definition arrayUnion (x : string) (l : list string) : list string :=
  if decide (x ∈ l) then l else l ++ [x].

(** [arrayRemove]: every instance of the element is removed. *)
Definition arrayRemove (x : string) (l : list string) : list string :=
  filter (λ y, y ≠ x) l.

Definition applyUpdate (u : UpdateData) (c : Class.t) : Class.t :=
  match u with
  | SetFields p => Patch.apply p c
  | ArrayUnion x => Class.withEnrolled (arrayUnion x) c
  | ArrayRemove x => Class.withEnrolled (arrayRemove x) c
  end.

(** A write queued in a [writeBatch]. *)
Inductive BatchOp :=
| BSet (ref : string) (data : Class.t)
| BUpdate (ref : string) (data : UpdateData)
| BDelete (ref : string).

(** The two queries of the module: equality on one field and
    [where('datetime', '>=', from)]. *)
Inductive EqField := FBaseId | FSchoolId.

Record Query := mkQuery {
  q_field : EqField;
  q_value : string;
  q_from : string;
}.

(** A string field equals the query value; a [null] or absent [baseId] equals
    no string.  The range filter is the store's order on strings. *)
Definition matches (q : Query) (c : Class.t) : bool :=
  match q_field q with
  | FBaseId =>
      match Class.baseId c with
      | Some b => String.eqb b (q_value q)
      | None => false
      end
  | FSchoolId => String.eqb (Class.schoolId c) (q_value q)
  end && String.leb (q_from q) (Class.datetime c).

(** Calls made to the repository, in the order they are issued. *)
Inductive Call :=
| CGetDoc (ref : string)
| CGetDocs (q : Query)
| CSetDoc (ref : string) (data : Class.t)
| CUpdateDoc (ref : string) (data : UpdateData)
| CDeleteDoc (ref : string)
| CCommit (ops : list BatchOp)
| CUpdateUser (ref : string) (name : string) (email : option string).

Definition isWrite (c : Call) : bool :=
  match c with
  | CGetDoc _ | CGetDocs _ => false
  | _ => true
  end.

(** One queued write on the collection; an update of a missing document is
    refused. *)
Definition applyOp (op : BatchOp) (m : gmap string Class.t)
  : option (gmap string Class.t) :=
  match op with
  | BSet ref d => Some (<[ref := d]> m)
  | BUpdate ref u =>
      match m !! ref with
      | Some _ => Some (alter (applyUpdate u) ref m)
      | None => None
      end
  | BDelete ref => Some (delete ref m)
  end.

(** The writes of a batch in order; [None] as soon as one is refused. *)
Fixpoint applyOps (ops : list BatchOp) (m : gmap string Class.t)
  : option (gmap string Class.t) :=
  match ops with
  | [] => Some m
  | op :: rest =>
      match applyOp op m with
      | Some m' => applyOps rest m'
      | None => None
      end
  end.

(* ===================================================================== *)
(** ** Published state, identity account and the world *)
(* ===================================================================== *)

(** The data part of the zustand [Store]. *)
Module Store.
Record t := mk {
  user : option User.t;
  school : option School.t;
  classes : list Class.t;
  isLoading : bool;
}.

Definition initial : t := mk None None [] true.

(** [set({ classes })] *)
Definition setClasses (cs : list Class.t) (s : t) : t :=
  mk (user s) (school s) cs (isLoading s).

(** [set({ user })] *)
Definition setUser (u : option User.t) (s : t) : t :=
  mk u (school s) (classes s) (isLoading s).
End Store.

(** The account behind [auth.currentUser]. *)
Module Account.
Record t := mk {
  uid : string;
  email : string;
  password : string;
}.
End Account.

Module World.
Record t := mk {
  store : Store.t;                      (* the published state *)
  classes : gmap string Class.t;        (* collection 'classes' *)
  users : gmap string User.t;           (* collection 'users' *)
  currentUser : option Account.t;       (* auth.currentUser *)
  calls : list Call;                    (* repository calls, oldest first *)
  console : list string;                (* console.error labels *)
  ids : nat;                            (* document ids drawn so far *)
  uuids : nat;                          (* UUIDs drawn so far *)
  clock : nat;                          (* readings of the clock so far *)
}.

Definition withStore (f : Store.t → Store.t) (w : t) : t :=
  mk (f (store w)) (classes w) (users w) (currentUser w) (calls w)
     (console w) (ids w) (uuids w) (clock w).

Definition withClasses (m : gmap string Class.t) (w : t) : t :=
  mk (store w) m (users w) (currentUser w) (calls w)
     (console w) (ids w) (uuids w) (clock w).

Definition withUsers (m : gmap string User.t) (w : t) : t :=
  mk (store w) (classes w) m (currentUser w) (calls w)
     (console w) (ids w) (uuids w) (clock w).

Definition withCurrentUser (a : option Account.t) (w : t) : t :=
  mk (store w) (classes w) (users w) a (calls w)
     (console w) (ids w) (uuids w) (clock w).

Definition logCall (c : Call) (w : t) : t :=
  mk (store w) (classes w) (users w) (currentUser w) (calls w ++ [c])
     (console w) (ids w) (uuids w) (clock w).

Definition logConsole (s : string) (w : t) : t :=
  mk (store w) (classes w) (users w) (currentUser w) (calls w)
     (console w ++ [s]) (ids w) (uuids w) (clock w).

Definition nextId (w : t) : t :=
  mk (store w) (classes w) (users w) (currentUser w) (calls w)
     (console w) (S (ids w)) (uuids w) (clock w).

Definition nextUUID (w : t) : t :=
  mk (store w) (classes w) (users w) (currentUser w) (calls w)
     (console w) (ids w) (S (uuids w)) (clock w).

Definition tick (w : t) : t :=
  mk (store w) (classes w) (users w) (currentUser w) (calls w)
     (console w) (ids w) (uuids w) (S (clock w)).
End World.

(** What the platform supplies: the ids of fresh document references,
    [crypto.randomUUID()], the clock read as [new Date().toISOString()]
    (each indexed by the number of earlier draws), and the date library. *)
Record Runtime := mkRuntime {
  autoId : nat → string;
  randomUUID : nat → string;
  nowISO : nat → string;
  parseISO : string → Z;
  toISOString : Z → string;
  addYears : Z → Z → Z;
}.

(* ===================================================================== *)
(** ** Asynchronous actions as a state-and-exception monad *)
(* ===================================================================== *)

Inductive Error :=
| JsError (message : string)       (* [new Error(message)] thrown by the module *)
| FirestoreError (code : string)   (* a rejected repository call *)
| AuthError (code : string).       (* a rejected identity call *)

Inductive Result (A : Type) :=
| Ok (a : A)
| Throw (e : Error).
Arguments Ok {A} a.
Arguments Throw {A} e.

Definition M (A : Type) : Type := World.t → Result A * World.t.

#[export] Instance M_ret : MRet M := λ A a w, (Ok a, w).

#[export] Instance M_bind : MBind M := λ A B f m w,
  match m w with
  | (Ok a, w') => f a w'
  | (Throw e, w') => (Throw e, w')
  end.

Definition throw {A} (e : Error) : M A := λ w, (Throw e, w).
Definition get : M World.t := λ w, (Ok w, w).
Definition modify (f : World.t → World.t) : M unit := λ w, (Ok tt, f w).

(** [try { body } catch (error) { console.error(label, error); throw error; }] *)
Definition tryLog {A} (label : string) (body : M A) : M A := λ w,
  match body w with
  | (Ok a, w') => (Ok a, w')
  | (Throw e, w') => (Throw e, World.logConsole label w')
  end.

(* ===================================================================== *)
(** ** Occurrence generator ([utils/dateUtils]) *)
(* ===================================================================== *)

(** A [Date] is its number of milliseconds since the epoch. *)
Definition msPerDay : Z := 86400000.
Definition msPerWeek : Z := 7 * msPerDay.

(** Modelled from the spec: [generateRecurringDates] of [utils/dateUtils] is
    not among the sources.  Section 4.1: one occurrence per week, starting at
    [start] and continuing while the computed instant is strictly before
    [horizonEnd]. *)
Equations? generateRecurringDates (start horizonEnd : Z) : list Z
  by wf (Z.to_nat ((horizonEnd - start + msPerWeek - 1) / msPerWeek)) lt :=
  generateRecurringDates start horizonEnd with decide (start < horizonEnd) => {
    | left _ := start :: generateRecurringDates (start + msPerWeek) horizonEnd;
    | right _ := [] }.
Proof.
  assert (0 < msPerWeek) as Hw by (unfold msPerWeek, msPerDay; lia).
  replace (horizonEnd - start + msPerWeek - 1)
    with (horizonEnd - (start + msPerWeek) + msPerWeek - 1 + 1 * msPerWeek)
    by lia.
  rewrite Z.div_add by lia.
  assert (0 <= (horizonEnd - (start + msPerWeek) + msPerWeek - 1) / msPerWeek)%Z
    by (apply Z.div_pos; lia).
  lia.
Qed.

(* ===================================================================== *)
(** ** The actions of [useStore] *)
(* ===================================================================== *)

Section Actions.

Variable rt : Runtime.

(** *** Repository and platform primitives *)

(** [doc(collection(db, 'classes'))]: a reference with a fresh id. *)
Definition newDocRef : M string := λ w,
  (Ok (autoId rt (World.ids w)), World.nextId w).

(** [crypto.randomUUID()] *)
Definition newUUID : M string := λ w,
  (Ok (randomUUID rt (World.uuids w)), World.nextUUID w).

(** [new Date().toISOString()] *)
Definition newDateISO : M string := λ w,
  (Ok (nowISO rt (World.clock w)), World.tick w).

Definition getDoc (ref : string) : M (option Class.t) := λ w,
  (Ok (World.classes w !! ref), World.logCall (CGetDoc ref) w).

(** The documents of a query snapshot with their ids.  They come in the
    enumeration order of the map; the actions depend on the order only for
    the order of the published list. *)
Definition snapshot (q : Query) (m : gmap string Class.t)
  : list (string * Class.t) :=
  map_to_list (filter (λ kc, matches q kc.2 = true) m).

Definition getDocs (q : Query) : M (list (string * Class.t)) := λ w,
  (Ok (snapshot q (World.classes w)), World.logCall (CGetDocs q) w).

Definition setDoc (ref : string) (data : Class.t) : M unit := λ w,
  (Ok tt, World.withClasses (<[ref := data]> (World.classes w))
            (World.logCall (CSetDoc ref data) w)).

Definition updateDoc (ref : string) (data : UpdateData) : M unit := λ w,
  let w' := World.logCall (CUpdateDoc ref data) w in
  match applyOp (BUpdate ref data) (World.classes w) with
  | Some m => (Ok tt, World.withClasses m w')
  | None => (Throw (FirestoreError "not-found"), w')
  end.

Definition deleteDoc (ref : string) : M unit := λ w,
  (Ok tt, World.withClasses (delete ref (World.classes w))
            (World.logCall (CDeleteDoc ref) w)).

(** [batch.commit()]: every queued write is applied or none is.  The store's
    limit on the size of a batch is not modelled. *)
Definition commit (ops : list BatchOp) : M unit := λ w,
  let w' := World.logCall (CCommit ops) w in
  match applyOps ops (World.classes w) with
  | Some m => (Ok tt, World.withClasses m w')
  | None => (Throw (FirestoreError "not-found"), w')
  end.

(** [snapshot.docs.forEach(doc => batch.f(doc.ref))] on a new batch. *)
Definition forEachDoc (f : string → BatchOp) (docs : list (string * Class.t))
  : list BatchOp :=
  map (λ kc, f kc.1) docs.

(** *** [fetchClasses] *)

Definition fetchClasses : M unit :=
  tryLog "Error fetching classes:" (
    w ← get;
    match truthy (Store.user (World.store w) ≫= User.schoolId) with
    | None => mret tt
    | Some schoolId =>
        now ← newDateISO;
        docs ← getDocs (mkQuery FSchoolId schoolId now);
        (* [{ id: doc.id, ...doc.data() }]: the data's own [id] wins *)
        let classes := map snd docs in
        modify (World.withStore (Store.setClasses classes))
    end).

(** *** [addClass] *)

(** The object of [batch.set]:
    [{ ...classData, id, datetime, baseId: index === 0 ? null : baseId }] *)
Definition occurrence (classData : Class.t) (id datetime baseId : string)
    (index : nat) : Class.t :=
  Class.mk id (Class.title classData) (Class.teacherId classData) datetime
    (Class.duration classData) (Class.maxStudents classData)
    (Class.enrolledStudents classData) (Class.isRecurring classData)
    (Class.level classData) (Class.description classData)
    (if Nat.eqb index 0 then None else Some baseId)
    (Class.schoolId classData).

(** [dates.forEach((date, index) => ...)] from [index] on, on the batch built
    so far. *)
Fixpoint queueOccurrences (classData : Class.t) (baseId : string)
    (dates : list Z) (index : nat) (batch : list BatchOp)
  : M (list BatchOp) :=
  match dates with
  | [] => mret batch
  | date :: rest =>
      recurringClassRef ← newDocRef;
      queueOccurrences classData baseId rest (S index)
        (batch ++ [BSet recurringClassRef
                     (occurrence classData recurringClassRef
                        (toISOString rt date) baseId index)])
  end.

Definition addClass (newClass : NewClass.t) : M unit :=
  tryLog "Error adding class:" (
    classRef ← newDocRef;
    let classData := NewClass.withId newClass classRef in
    (if NewClass.isRecurring newClass then
       let startDate := parseISO rt (NewClass.datetime newClass) in
       let endDate := addYears rt startDate 1 in
       let dates := generateRecurringDates startDate endDate in
       baseId ← newUUID;
       batch ← queueOccurrences classData baseId dates 0 [];
       commit batch
     else
       setDoc classRef classData);;
    fetchClasses).

(** *** [updateClass] and [deleteClass] *)

Definition classNotFound : Error := JsError "Class not found".

Definition updateClass (classId : string) (updatedClass : Patch.t)
    (updateRecurring : bool) : M unit :=
  tryLog "Error updating class:" (
    classDoc ← getDoc classId;
    match classDoc with
    | None => throw classNotFound
    | Some classData =>
        (match (if updateRecurring then truthy (Class.baseId classData)
                else None) with
         | Some baseId =>
             now ← newDateISO;
             docs ← getDocs (mkQuery FBaseId baseId now);
             commit (forEachDoc (λ ref, BUpdate ref (SetFields updatedClass)) docs)
         | None => updateDoc classId (SetFields updatedClass)
         end);;
        fetchClasses
    end).

Definition deleteClass (classId : string) (deleteRecurring : bool) : M unit :=
  tryLog "Error deleting class:" (
    classDoc ← getDoc classId;
    match classDoc with
    | None => throw classNotFound
    | Some classData =>
        (match (if deleteRecurring then truthy (Class.baseId classData)
                else None) with
         | Some baseId =>
             now ← newDateISO;
             docs ← getDocs (mkQuery FBaseId baseId now);
             commit (forEachDoc BDelete docs)
         | None => deleteDoc classId
         end);;
        fetchClasses
    end).

(** *** [enrollInClass] and [unenrollFromClass] *)

Definition enrollInClass (classId userId : string) (enrollAll : bool)
  : M unit :=
  tryLog "Error enrolling in class:" (
    classDoc ← getDoc classId;
    match classDoc with
    | None => throw classNotFound
    | Some classData =>
        (match (if enrollAll then truthy (Class.baseId classData)
                else None) with
         | Some baseId =>
             docs ← getDocs (mkQuery FBaseId baseId (Class.datetime classData));
             commit (forEachDoc (λ ref, BUpdate ref (ArrayUnion userId)) docs)
         | None => updateDoc classId (ArrayUnion userId)
         end);;
        fetchClasses
    end).

Definition unenrollFromClass (classId userId : string) (unenrollAll : bool)
  : M unit :=
  tryLog "Error unenrolling from class:" (
    classDoc ← getDoc classId;
    match classDoc with
    | None => throw classNotFound
    | Some classData =>
        (match (if unenrollAll then truthy (Class.baseId classData)
                else None) with
         | Some baseId =>
             docs ← getDocs (mkQuery FBaseId baseId (Class.datetime classData));
             commit (forEachDoc (λ ref, BUpdate ref (ArrayRemove userId)) docs)
         | None => updateDoc classId (ArrayRemove userId)
         end);;
        fetchClasses
    end).

End Actions.

(* ===================================================================== *)
(** ** [updateProfile] and the identity collaborator *)
(* ===================================================================== *)

(** The argument of [updateProfile]. *)
Module ProfileData.
Record t := mk {
  name : string;
  email : string;
  currentPassword : option string;
  newPassword : option string;
}.
End ProfileData.

Definition notConnected : Error := JsError "Utilisateur non connecté".
Definition currentPasswordRequired : Error :=
  JsError "Mot de passe actuel requis pour modifier email ou mot de passe".

(** [reauthenticateWithCredential(auth.currentUser,
    EmailAuthProvider.credential(auth.currentUser.email, password))]:
    accepted when the password is the account's. *)
Definition reauthenticate (password : string) : M unit := λ w,
  match World.currentUser w with
  | Some a =>
      if String.eqb password (Account.password a) then (Ok tt, w)
      else (Throw (AuthError "auth/wrong-password"), w)
  | None => (Throw (AuthError "auth/no-current-user"), w)
  end.

(** [updateEmail(auth.currentUser, email)] *)
Definition updateEmail (email : string) : M unit := λ w,
  match World.currentUser w with
  | Some a =>
      (Ok tt, World.withCurrentUser
                (Some (Account.mk (Account.uid a) email (Account.password a))) w)
  | None => (Throw (AuthError "auth/no-current-user"), w)
  end.

(** [updatePassword(auth.currentUser, newPassword)] *)
Definition updatePassword (password : string) : M unit := λ w,
  match World.currentUser w with
  | Some a =>
      (Ok tt, World.withCurrentUser
                (Some (Account.mk (Account.uid a) (Account.email a) password)) w)
  | None => (Throw (AuthError "auth/no-current-user"), w)
  end.

(** [{ ...user, ...updates }] with [updates = { name }] or [{ name, email }]. *)
Definition mergeUpdates (u : User.t) (name : string) (email : option string)
  : User.t :=
  User.mk (User.id u) (default (User.email u) email) name (User.role u)
    (User.schoolId u).

(** [updateDoc(doc(db, 'users', id), updates)] *)
Definition updateUserDoc (ref name : string) (email : option string)
  : M unit := λ w,
  let w' := World.logCall (CUpdateUser ref name email) w in
  match World.users w !! ref with
  | Some _ =>
      (Ok tt, World.withUsers
                (alter (λ u, mergeUpdates u name email) ref (World.users w)) w')
  | None => (Throw (FirestoreError "not-found"), w')
  end.

Definition updateProfile (data : ProfileData.t) : M unit :=
  w ← get;
  match Store.user (World.store w), World.currentUser w with
  | Some user, Some _ =>
      tryLog "Error updating profile:" (
        let emailChanged :=
          negb (String.eqb (ProfileData.email data) (User.email user)) in
        let newPassword := truthy (ProfileData.newPassword data) in
        updatesEmail ←
          (if emailChanged || bool_decide (is_Some newPassword) then
             match truthy (ProfileData.currentPassword data) with
             | None => throw currentPasswordRequired
             | Some currentPassword =>
                 reauthenticate currentPassword;;
                 updatesEmail ←
                   (if emailChanged then
                      updateEmail (ProfileData.email data);;
                      mret (Some (ProfileData.email data))
                    else mret None);
                 match newPassword with
                 | Some p => updatePassword p
                 | None => mret tt
                 end;;
                 mret updatesEmail
             end
           else mret None);
        updateUserDoc (User.id user) (ProfileData.name data) updatesEmail;;
        modify (World.withStore (Store.setUser
          (Some (mergeUpdates user (ProfileData.name data) updatesEmail)))))
  | _, _ => throw notConnected
  end.

(* ===================================================================== *)
(** ** The profile form ([UserProfile]) *)
(* ===================================================================== *)

(** The form values ([ProfileInputs]). *)
Module ProfileInputs.
Record t := mk {
  name : string;
  email : string;
  currentPassword : option string;
  newPassword : option string;
  confirmPassword : option string;
}.
End ProfileInputs.

(** A validation issue: the path of the field and the message. *)
Record Issue := mkIssue {
  path : string;
  message : string;
}.

(** A byte from 128 to 191 continues a UTF-8 character; a byte from 240 on
    starts a character of four bytes, one outside the basic plane. *)
Definition isContinuation (a : ascii) : bool :=
  Nat.leb 128 (nat_of_ascii a) && Nat.ltb (nat_of_ascii a) 192.

Definition startsFour (a : ascii) : bool := Nat.leb 240 (nat_of_ascii a).

(** The [length] of a JavaScript string, which counts UTF-16 code units,
    read off the UTF-8 text that a string holds here: one unit for every
    character and a second one for a character outside the basic plane.
    Bytes that form no character count one unit at most. *)
Fixpoint jsLength (s : string) : nat :=
  match s with
  | EmptyString => 0%nat
  | String a rest =>
      if isContinuation a then jsLength rest
      else if startsFour a then
        match rest with
        | String b rest' =>
            if isContinuation b then S (S (jsLength rest'))
            else S (jsLength rest)
        | EmptyString => 1%nat
        end
      else S (jsLength rest)
  end.

Definition issueIf (b : bool) (p m : string) : list Issue :=
  if b then [mkIssue p m] else [].

Section ProfileForm.

(** [z.string().email()], the email syntax check of the schema library. *)
Variable isEmail : string → bool.

(** The issues [createProfileSchema(initialEmail)] reports on the form
    values: the two field checks, then the [superRefine] callback. *)
Definition createProfileSchema (initialEmail : string) (data : ProfileInputs.t)
  : list Issue :=
  let newPassword := truthy (ProfileInputs.newPassword data) in
  issueIf (Nat.ltb (jsLength (ProfileInputs.name data)) 2)
    "name" "Le nom doit faire au moins 2 caractères"
  ++ issueIf (negb (isEmail (ProfileInputs.email data)))
    "email" "Email invalide"
  ++ issueIf
       ((negb (String.eqb (ProfileInputs.email data) initialEmail)
         || bool_decide (is_Some newPassword))
        && bool_decide (truthy (ProfileInputs.currentPassword data) = None))
       "currentPassword"
       "Le mot de passe actuel est requis pour changer l'email ou le mot de passe"
  ++ match newPassword with
     | Some p =>
         issueIf (Nat.ltb (jsLength p) 6)
           "newPassword" "Le nouveau mot de passe doit faire au moins 6 caractères"
         ++ issueIf (bool_decide (ProfileInputs.newPassword data
                                  ≠ ProfileInputs.confirmPassword data))
           "confirmPassword" "Les mots de passe ne correspondent pas"
     | None => []
     end.

(** What a submission of the form ends in. *)
Inductive FormOutcome :=
| Invalid (issues : list Issue)   (* the resolver reports errors: no call *)
| Failed (e : Error)              (* [setError]: the core threw *)
| Succeeded.                      (* [setSuccess(true)] *)

(** [onSubmit]: the call to the core, its failure caught into the form. *)
Definition onSubmit (data : ProfileInputs.t) : M FormOutcome := λ w,
  match updateProfile
          (ProfileData.mk (ProfileInputs.name data) (ProfileInputs.email data)
             (ProfileInputs.currentPassword data)
             (ProfileInputs.newPassword data)) w with
  | (Ok _, w') => (Ok Succeeded, w')
  | (Throw e, w') => (Ok (Failed e), w')
  end.

(** [handleSubmit(onSubmit)] with [zodResolver(createProfileSchema(initialEmail))],
    [initialEmail] being [user?.email || '']. *)
Definition handleSubmit (data : ProfileInputs.t) : M FormOutcome :=
  w ← get;
  let initialEmail :=
    default "" (truthy (User.email <$> Store.user (World.store w))) in
  match createProfileSchema initialEmail data with
  | [] => onSubmit data
  | issues => mret (Invalid issues)
  end.

End ProfileForm.

(* ===================================================================== *)
(** ** The class card ([ClassCard]) *)
(* ===================================================================== *)

Module ClassCard.
Section Card.

Variable rt : Runtime.
Variable classData : Class.t.

Definition isEnrolled (user : option User.t) : bool :=
  match user with
  | Some u => bool_decide (User.id u ∈ Class.enrolledStudents classData)
  | None => false
  end.

Definition isFull : bool :=
  Z.leb (Class.maxStudents classData)
        (Z.of_nat (length (Class.enrolledStudents classData))).

(** The [disabled] attribute of the enrollment button (with [isLoading]
    false, as it always is: only the edit form sets it). *)
Definition enrollDisabled (user : option User.t) : bool :=
  negb (isEnrolled user) && isFull.

Definition handleEnrollment (enrollAll : bool) : M unit :=
  w ← get;
  match Store.user (World.store w) with
  | None => mret tt
  | Some user =>
      if isEnrolled (Some user)
      then unenrollFromClass rt (Class.id classData) (User.id user) false
      else enrollInClass rt (Class.id classData) (User.id user) enrollAll
  end.

End Card.
End ClassCard.

(* ===================================================================== *)
(** ** Vocabulary of the properties *)
(* ===================================================================== *)

(** The repository calls that change a collection. *)
Definition writes (w : World.t) : list Call :=
  List.filter isWrite (World.calls w).

(** A class belongs to the part of series [sid] that starts at [from]: it
    carries that [baseId] and its [datetime] is not before [from] in the
    store's order on the field. *)
Definition inSeriesFrom (sid from : string) (c : Class.t) : Prop :=
  Class.baseId c = Some sid ∧ String.leb from (Class.datetime c) = true.

#[export] Instance inSeriesFrom_dec sid from c : Decision (inSeriesFrom sid from c).
Proof. unfold inSeriesFrom. apply _. Defined.

(** The four cascading actions share one shape; they differ in the cut-off of
    the series query and in the write they issue. *)
Inductive Cutoff :=
| Now               (* [new Date().toISOString()] *)
| TargetDatetime.   (* [classData.datetime] *)

Inductive Mutation :=
| MUpdate (u : UpdateData)
| MDelete.

Definition batchOp (mu : Mutation) (ref : string) : BatchOp :=
  match mu with
  | MUpdate u => BUpdate ref u
  | MDelete => BDelete ref
  end.

Definition singleCall (mu : Mutation) (ref : string) : Call :=
  match mu with
  | MUpdate u => CUpdateDoc ref u
  | MDelete => CDeleteDoc ref
  end.

(** What the write makes of one document ([None]: it is gone). *)
Definition mutate (mu : Mutation) (c : Class.t) : option Class.t :=
  match mu with
  | MUpdate u => Some (applyUpdate u c)
  | MDelete => None
  end.

Section Cascade.

Variable rt : Runtime.

Definition cutoff (cu : Cutoff) (classData : Class.t) : M string :=
  match cu with
  | Now => newDateISO rt
  | TargetDatetime => mret (Class.datetime classData)
  end.

(** The value [cutoff] yields in world [w]. *)
Definition cutoffAt (cu : Cutoff) (classData : Class.t) (w : World.t) : string :=
  match cu with
  | Now => nowISO rt (World.clock w)
  | TargetDatetime => Class.datetime classData
  end.

Definition single (mu : Mutation) (ref : string) : M unit :=
  match mu with
  | MUpdate u => updateDoc ref u
  | MDelete => deleteDoc ref
  end.

Definition cascade (label : string) (cu : Cutoff) (mu : Mutation)
    (classId : string) (all : bool) : M unit :=
  tryLog label (
    classDoc ← getDoc classId;
    match classDoc with
    | None => throw classNotFound
    | Some classData =>
        (match (if all then truthy (Class.baseId classData) else None) with
         | Some baseId =>
             from ← cutoff cu classData;
             docs ← getDocs (mkQuery FBaseId baseId from);
             commit (forEachDoc (batchOp mu) docs)
         | None => single mu classId
         end);;
        fetchClasses rt
    end).

End Cascade.

(** [w'] is [w] after at most a refresh of the published class list: the
    collections, the writes issued, the console and the published user are
    those of [w]. *)
Definition refreshed (w w' : World.t) : Prop :=
  World.classes w' = World.classes w ∧
  World.users w' = World.users w ∧
  writes w' = writes w ∧
  World.console w' = World.console w ∧
  Store.user (World.store w') = Store.user (World.store w).

(** The result of an action run in world [w], and the world it leaves. *)
Definition outcome {A} (m : M A) (w : World.t) : Result A := (m w).1.
Definition after {A} (m : M A) (w : World.t) : World.t := (m w).2.

(** Nothing was changed: the collection and the published state are the same
    and no write was issued. *)
Definition unchanged (w w' : World.t) : Prop :=
  World.classes w' = World.classes w ∧
  World.store w' = World.store w ∧
  writes w' = writes w.

(** The collection [m'] is [m] with the write [mu] applied to the documents
    of series [sid] from [from] on, and to no other document. *)
Definition appliedToSeries (mu : Mutation) (sid from : string)
    (m m' : gmap string Class.t) : Prop :=
  ∀ k, m' !! k =
       match m !! k with
       | Some c => if decide (inSeriesFrom sid from c) then mutate mu c
                   else Some c
       | None => None
       end.

(** The collection [m'] is [m] with the write [mu] applied to document
    [ref], and to no other document. *)
Definition appliedToOne (mu : Mutation) (ref : string)
    (m m' : gmap string Class.t) : Prop :=
  ∀ k, m' !! k = if decide (k = ref) then m !! k ≫= mutate mu else m !! k.

(** Between [w] and [w'] exactly one write was issued, a batch commit holding
    one [mu] per document of [w] that satisfies [P]. *)
Definition oneBatchOn (mu : Mutation) (P : Class.t → Prop) (w w' : World.t)
  : Prop :=
  ∃ ks, writes w' = writes w ++ [CCommit (map (batchOp mu) ks)] ∧
        NoDup ks ∧
        ∀ k, k ∈ ks ↔ ∃ c, World.classes w !! k = Some c ∧ P c.

(** Between [w] and [w'] exactly one write was issued, on document [ref]. *)
Definition oneWriteOn (mu : Mutation) (ref : string) (w w' : World.t) : Prop :=
  writes w' = writes w ++ [singleCall mu ref].

(** The intended capacity invariant of one class. *)
Definition withinCapacity (c : Class.t) : Prop :=
  (Z.of_nat (length (Class.enrolledStudents c)) ≤ Class.maxStudents c)%Z.

#[export] Instance withinCapacity_dec c : Decision (withinCapacity c).
Proof. unfold withinCapacity. apply _. Defined.

(** The form values with another confirmation. *)
Definition withConfirmPassword (confirm : option string)
    (data : ProfileInputs.t) : ProfileInputs.t :=
  ProfileInputs.mk (ProfileInputs.name data) (ProfileInputs.email data)
    (ProfileInputs.currentPassword data) (ProfileInputs.newPassword data)
    confirm.

(** The two issues of the [superRefine] callback the properties name. *)
Definition currentPasswordIssue : Issue :=
  mkIssue "currentPassword"
    "Le mot de passe actuel est requis pour changer l'email ou le mot de passe".
Definition confirmPasswordIssue : Issue :=
  mkIssue "confirmPassword" "Les mots de passe ne correspondent pas".

(** "Exactly one year after": a calendar year is 365 or 366 days long; any
    horizon in between is allowed. *)
Definition oneYearAfter (start horizonEnd : Z) : Prop :=
  (start + 365 * msPerDay ≤ horizonEnd ≤ start + 366 * msPerDay)%Z.

(** The documents [queueOccurrences] builds for [dates] when [n] ids have
    been drawn. *)
Fixpoint occurrences (rt : Runtime) (classData : Class.t) (baseId : string)
    (dates : list Z) (index n : nat) : list Class.t :=
  match dates with
  | [] => []
  | date :: rest =>
      occurrence classData (autoId rt n) (toISOString rt date) baseId index
      :: occurrences rt classData baseId rest (S index) (S n)
  end.

(** [batch.set(ref, data)] for documents that carry their own id. *)
Definition setOp (d : Class.t) : BatchOp := BSet (Class.id d) d.

(** The world after [n] more ids have been drawn. *)
Definition drawIds (n : nat) (w : World.t) : World.t :=
  World.mk (World.store w) (World.classes w) (World.users w)
    (World.currentUser w) (World.calls w) (World.console w)
    (n + World.ids w) (World.uuids w) (World.clock w).

(* ===================================================================== *)
(** ** A concrete school, used to instantiate the properties *)
(* ===================================================================== *)

Module Scenario.

(** Two letters that tell small numbers apart. *)
Definition suffix (n : nat) : string :=
  String (ascii_of_nat (65 + (n / 26) mod 26))
    (String (ascii_of_nat (65 + n mod 26)) "").

(** Document ids of 20 characters, UUIDs of 36, a clock stopped on
    5 March 2025, instants printed as decimal numbers, years of 365 days. *)
Definition rt : Runtime :=
  mkRuntime
    (λ n, "AAAAAAAAAAAAAAAAAA" ++ suffix n)%string
    (λ n, "00000000-0000-4000-8000-0000000000" ++ suffix n)%string
    (λ _, "2025-03-05T00:00:00.000Z")
    (λ _, 1736186400000)
    (λ z, pretty z)
    (λ d n, d + n * (365 * msPerDay)).

Definition mkClass (id datetime : string) (maxStudents : Z)
    (enrolled : list string) (baseId : option string) : Class.t :=
  Class.mk id "Pole dance" "t1" datetime 60 maxStudents enrolled true
    beginner None baseId "s1".

(** Two classes whose [baseId] is the empty string. *)
Definition c1 : Class.t := mkClass "c1" "2025-03-03T18:00:00.000Z" 8 [] (Some "").
Definition c2 : Class.t := mkClass "c2" "2025-03-10T18:00:00.000Z" 8 [] (Some "").

(** The first occurrence of a series, then three that carry the series id:
    [a2] is full and [a3] lies before the clock reading. *)
Definition a0 : Class.t := mkClass "a0" "2025-03-03T18:00:00.000Z" 1 [] None.
Definition a1 : Class.t := mkClass "a1" "2025-03-10T18:00:00.000Z" 1 [] (Some "series-1").
Definition a2 : Class.t := mkClass "a2" "2025-03-17T18:00:00.000Z" 1 ["u2"] (Some "series-1").
Definition a3 : Class.t := mkClass "a3" "2025-03-04T18:00:00.000Z" 1 [] (Some "series-1").

Definition u1 : User.t := User.mk "u1" "ann@example.org" "Ann" student (Some "s1").

Definition w : World.t :=
  World.mk
    (Store.mk (Some u1) None [] false)
    (list_to_map [("c1", c1); ("c2", c2); ("a0", a0); ("a1", a1); ("a2", a2);
                  ("a3", a3)])
    (list_to_map [("u1", u1)])
    (Some (Account.mk "u1" "ann@example.org" "secret1"))
    [] [] 0 0 0.

(** The same world with nobody signed in. *)
Definition signedOut : World.t :=
  World.withStore (Store.setUser None) w.

Definition retitle : Patch.t :=
  Patch.mk None (Some "Pole dance (new room)") None None None None None None
    None None None None.

Definition weekly : NewClass.t :=
  NewClass.mk "Pole dance" "t1" "2025-01-06T18:00:00.000Z" 60 8 [] true
    beginner None None "s1".

(** An email change submitted with no current password. *)
Definition emailChange : ProfileData.t :=
  ProfileData.mk "Ann" "ann@example.com" None None.

(** Form values whose confirmation differs from the new password. *)
Definition mismatch : ProfileInputs.t :=
  ProfileInputs.mk "Ann" "ann@example.org" (Some "secret1") (Some "secret2")
    (Some "secret3").

End Scenario.

(* ===================================================================== *)
(** ** Proof tactics *)
(* ===================================================================== *)

(** Unfold one layer of an action down to the primitives. *)
Ltac run :=
  unfold tryLog, mbind, M_bind, get, getDoc, getDocs, commit, newUUID,
    newDocRef; simpl.

(** The writes of a world whose log was extended by known calls. *)
Ltac writes_of_log :=
  unfold writes; simpl; rewrite ?List.filter_app; simpl;
  rewrite ?app_nil_r; try done.

(* ===================================================================== *)
(** ** The rest of [useStore]: session and school *)
(* ===================================================================== *)

(** [set({ school })] *)
Definition setSchoolState (s : option School.t) (st : Store.t) : Store.t :=
  Store.mk (Store.user st) s (Store.classes st) (Store.isLoading st).

(** [set({ user: null, school: null })] *)
Definition clearSession (st : Store.t) : Store.t :=
  Store.mk None None (Store.classes st) (Store.isLoading st).

(** [{ ...user, schoolId }] *)
Definition withSchoolId (schoolId : string) (u : User.t) : User.t :=
  User.mk (User.id u) (User.email u) (User.name u) (User.role u) (Some schoolId).

(** [firebaseSignOut(auth)] *)
Definition firebaseSignOut : M unit := modify (World.withCurrentUser None).

Definition signOut : M unit :=
  tryLog "Error signing out:" (
    firebaseSignOut;;
    modify (World.withStore clearSession)).

(** [updateDoc(doc(db, 'users', ref), { schoolId })].  The call log keeps to
    the class repository and the profile update; this write is not in it. *)
Definition updateUserSchoolDoc (ref schoolId : string) : M unit := λ w,
  match World.users w !! ref with
  | Some _ =>
      (Ok tt, World.withUsers (alter (withSchoolId schoolId) ref (World.users w)) w)
  | None => (Throw (FirestoreError "not-found"), w)
  end.

(** [Omit<School, 'id' | 'teacherIds'>], the argument of [createSchool]. *)
Module SchoolData.
Record t := mk {
  name : string;
  address : string;
  email : string;
  logo : option string;
  instagram : option string;
}.
End SchoolData.

(** The world together with the collection 'schools'. *)
Module Campus.
Record t := mk {
  world : World.t;
  schools : gmap string School.t;
}.

Definition withWorld (f : World.t → World.t) (s : t) : t :=
  mk (f (world s)) (schools s).

Definition withSchools (m : gmap string School.t) (s : t) : t :=
  mk (world s) m.
End Campus.

(** Actions that also reach the schools. *)
Definition MC (A : Type) : Type := Campus.t → Result A * Campus.t.

#[export] Instance MC_ret : MRet MC := λ A a s, (Ok a, s).

#[export] Instance MC_bind : MBind MC := λ A B f m s,
  match m s with
  | (Ok a, s') => f a s'
  | (Throw e, s') => (Throw e, s')
  end.

(** An action on the world, run on the campus. *)
Definition liftW {A} (m : M A) : MC A := λ s,
  match m (Campus.world s) with
  | (r, w') => (r, Campus.mk w' (Campus.schools s))
  end.

Definition tryLogC {A} (label : string) (body : MC A) : MC A := λ s,
  match body s with
  | (Ok a, s') => (Ok a, s')
  | (Throw e, s') => (Throw e, Campus.withWorld (World.logConsole label) s')
  end.

(** [getDoc(doc(db, 'schools', ref))] *)
Definition getSchoolDoc (ref : string) : MC (option School.t) := λ s,
  (Ok (Campus.schools s !! ref), s).

(** [setDoc(doc(db, 'schools', ref), school)] *)
Definition setSchoolDoc (ref : string) (school : School.t) : MC unit := λ s,
  (Ok tt, Campus.withSchools (<[ref := school]> (Campus.schools s)) s).

(** The published user, as an action reads it with [get().user]. *)
Definition getUser : MC (option User.t) := λ s,
  (Ok (Store.user (World.store (Campus.world s))), s).

(** [getDoc(doc(db, 'users', ref))] *)
Definition getUserDoc (ref : string) : MC (option User.t) := λ s,
  (Ok (World.users (Campus.world s) !! ref), s).

Definition userNotAuthenticated : Error := JsError "User not authenticated".

Section SchoolActions.

Variable rt : Runtime.

Definition createSchool (schoolData : SchoolData.t) : MC unit :=
  tryLogC "Error creating school:" (
    user ← getUser;
    match user with
    | None => λ s, (Throw userNotAuthenticated, s)
    | Some user =>
        schoolRef ← liftW (newDocRef rt);
        let school :=
          School.mk schoolRef (SchoolData.name schoolData)
            (SchoolData.address schoolData) (SchoolData.email schoolData)
            (SchoolData.logo schoolData) (SchoolData.instagram schoolData)
            [User.id user] in
        setSchoolDoc schoolRef school;;
        liftW (updateUserSchoolDoc (User.id user) (School.id school));;
        liftW (modify (World.withStore (λ st,
          Store.setUser (Some (withSchoolId (School.id school) user))
            (setSchoolState (Some school) st))))
    end).

End SchoolActions.

Definition updateUserSchool (userId schoolId : string) : MC unit :=
  tryLogC "Error updating user school:" (
    liftW (updateUserSchoolDoc userId schoolId);;
    schoolDoc ← getSchoolDoc schoolId;
    match schoolDoc with
    | Some school =>
        user ← getUser;
        match user with
        | Some user =>
            (* [{ id: schoolDoc.id, ...schoolDoc.data() }]: the data's own
               [id] wins *)
            liftW (modify (World.withStore (λ st,
              Store.setUser (Some (withSchoolId schoolId user))
                (setSchoolState (Some school) st))))
        | None => mret tt
        end
    | None => mret tt
    end).

Definition fetchCurrentSchool : MC unit :=
  tryLogC "Error fetching current school:" (
    user ← getUser;
    match truthy (user ≫= User.schoolId) with
    | None => mret tt
    | Some schoolId =>
        schoolDoc ← getSchoolDoc schoolId;
        match schoolDoc with
        | Some school =>
            liftW (modify (World.withStore (setSchoolState (Some school))))
        | None => mret tt
        end
    end).

(** [fetchSchools]: every school, in the enumeration order of the map. *)
Definition fetchSchools : MC (list School.t) :=
  tryLogC "Error fetching schools:" (λ s,
    (Ok (map snd (map_to_list (Campus.schools s))), s)).

(** The callback [initializeAuthListener] registers with
    [onAuthStateChanged], called with the uid of the signed-in account or
    with nothing.  A user document is [Omit<User, 'id'>]: the published id is
    the uid. *)
Definition authStateChanged (firebaseUser : option string) : MC unit :=
  match firebaseUser with
  | Some uid =>
      userDoc ← getUserDoc uid;
      match userDoc with
      | Some userData =>
          liftW (modify (World.withStore (λ st,
            Store.mk
              (Some (User.mk uid (User.email userData) (User.name userData)
                       (User.role userData) (User.schoolId userData)))
              (Store.school st) (Store.classes st) false)));;
          match truthy (User.schoolId userData) with
          | Some schoolId =>
              schoolDoc ← getSchoolDoc schoolId;
              match schoolDoc with
              | Some school =>
                  liftW (modify (World.withStore (setSchoolState (Some school))))
              | None => mret tt
              end
          | None => mret tt
          end
      | None => mret tt
      end
  | None =>
      liftW (modify (World.withStore (λ st,
        Store.mk None None (Store.classes st) false)))
  end.

(* ===================================================================== *)
(** ** The rest of the class card ([ClassCard]) *)
(* ===================================================================== *)

(** [ClassFormData] ([types/index.ts]) *)
Module ClassFormData.
Record t := mk {
  title : string;
  datetime : string;
  duration : Z;
  maxStudents : Z;
  isRecurring : bool;
  level : Level;
  description : option string;
}.
End ClassFormData.

Module ClassCardActions.
Section Card.

Variable rt : Runtime.
Variable classData : Class.t.

(** [{ ...formData, teacherId: user?.id }] for a signed-in user; an absent
    [description] is a key the object does not have. *)
Definition updatedClass (user : User.t) (formData : ClassFormData.t) : Patch.t :=
  Patch.mk None (Some (ClassFormData.title formData)) (Some (User.id user))
    (Some (ClassFormData.datetime formData))
    (Some (ClassFormData.duration formData))
    (Some (ClassFormData.maxStudents formData)) None
    (Some (ClassFormData.isRecurring formData))
    (Some (ClassFormData.level formData))
    (Some <$> ClassFormData.description formData) None None.

(** [handleUpdate], reached from the edit form, which only a teacher (hence
    a signed-in user) is shown.  A failure is logged and not thrown again. *)
Definition handleUpdate (user : User.t) (formData : ClassFormData.t)
    (updateRecurring : bool) : M unit := λ w,
  match updateClass rt (Class.id classData) (updatedClass user formData)
          updateRecurring w with
  | (Ok _, w') => (Ok tt, w')
  | (Throw _, w') => (Ok tt, World.logConsole "Error updating class:" w')
  end.

(** [handleDelete]: a failure is logged and not thrown again. *)
Definition handleDelete (deleteRecurring : bool) : M unit := λ w,
  match deleteClass rt (Class.id classData) deleteRecurring w with
  | (Ok _, w') => (Ok tt, w')
  | (Throw _, w') => (Ok tt, World.logConsole "Error deleting class:" w')
  end.

End Card.
End ClassCardActions.

(* ===================================================================== *)
(** ** The earlier profile form ([components/UserProfile.tsx]) *)
(* ===================================================================== *)

Section EarlierProfileForm.

Variable isEmail : string → bool.

(** The issues of [profileSchema]: the field checks ([optional()] lets an
    absent value through, not an empty one), then the [refine] callback,
    which the schema library runs only when every field has its type. *)
Definition profileSchema (data : ProfileInputs.t) : list Issue :=
  issueIf (Nat.ltb (jsLength (ProfileInputs.name data)) 2)
    "name" "Le nom doit faire au moins 2 caractères"
  ++ issueIf (negb (isEmail (ProfileInputs.email data)))
    "email" "Email invalide"
  ++ match ProfileInputs.currentPassword data with
     | Some p => issueIf (Nat.ltb (jsLength p) 1)
                   "currentPassword" "Mot de passe actuel requis"
     | None => [mkIssue "currentPassword" "Required"]
     end
  ++ match ProfileInputs.newPassword data with
     | Some p => issueIf (Nat.ltb (jsLength p) 6) "newPassword"
                   "Le nouveau mot de passe doit faire au moins 6 caractères"
     | None => []
     end
  ++ match ProfileInputs.currentPassword data with
     | Some _ =>
         issueIf
           (bool_decide (is_Some (truthy (ProfileInputs.newPassword data)))
            && bool_decide (ProfileInputs.newPassword data
                            ≠ ProfileInputs.confirmPassword data))
           "confirmPassword" "Les mots de passe ne correspondent pas"
     | None => []
     end.

(** [onSubmit] of that form: [newPassword: data.newPassword || undefined]. *)
Definition earlierOnSubmit (data : ProfileInputs.t) : M FormOutcome := λ w,
  match updateProfile
          (ProfileData.mk (ProfileInputs.name data) (ProfileInputs.email data)
             (ProfileInputs.currentPassword data)
             (truthy (ProfileInputs.newPassword data))) w with
  | (Ok _, w') => (Ok Succeeded, w')
  | (Throw e, w') => (Ok (Failed e), w')
  end.

Definition earlierHandleSubmit (data : ProfileInputs.t) : M FormOutcome :=
  match profileSchema data with
  | [] => earlierOnSubmit data
  | issues => mret (Invalid issues)
  end.

End EarlierProfileForm.

(* ===================================================================== *)
(** ** Vocabulary of the further properties *)
(* ===================================================================== *)

(** A credential change is requested. *)
Definition credentialChange (data : ProfileData.t) (user : User.t) : Prop :=
  ProfileData.email data ≠ User.email user
  ∨ is_Some (truthy (ProfileData.newPassword data)).

(* ===================================================================== *)
(** ** The concrete school, continued *)
(* ===================================================================== *)

Module Scenario2.

Definition school : School.t :=
  School.mk "s1" "Studio Bolt" "1 rue de la Barre" "studio@example.org"
    None None ["t1"].

Definition campus : Campus.t :=
  Campus.mk Scenario.w (list_to_map [("s1", school)]).

Definition tess : User.t :=
  User.mk "t1" "tess@example.org" "Tess" teacher (Some "s1").

(** The world of [Scenario] with the teacher signed in. *)
Definition teaching : World.t :=
  World.mk (Store.mk (Some tess) (Some school) [] false)
    (World.classes Scenario.w)
    (list_to_map [("u1", Scenario.u1); ("t1", tess)])
    (Some (Account.mk "t1" "tess@example.org" "secret9"))
    [] [] 0 0 0.

(** A user who has no school yet. *)
Definition newcomer : User.t :=
  User.mk "t2" "tom@example.org" "Tom" teacher None.

Definition founding : Campus.t :=
  Campus.mk
    (World.mk (Store.mk (Some newcomer) None [] false) ∅
       (list_to_map [("t2", newcomer)])
       (Some (Account.mk "t2" "tom@example.org" "secret7")) [] [] 0 0 0)
    ∅.

Definition studio : SchoolData.t :=
  SchoolData.mk "Studio Tom" "2 rue du Mat" "tom@example.org" None None.

Definition single : NewClass.t :=
  NewClass.mk "Stage" "t1" "2025-04-01T10:00:00.000Z" 90 6 [] false
    intermediate None None "s1".

Definition form : ClassFormData.t :=
  ClassFormData.mk "Pole dance" "2025-03-24T19:00" 60 8 true beginner
    (Some "Salle 2").

(** A name change with the right current password filled in. *)
Definition rename : ProfileData.t :=
  ProfileData.mk "Ann B." "ann@example.org" None None.

Definition changeBoth : ProfileData.t :=
  ProfileData.mk "Ann" "ann@example.com" (Some "secret1") (Some "hunter22").

Definition wrongPassword : ProfileData.t :=
  ProfileData.mk "Ann" "ann@example.com" (Some "guess") None.

(** The world of [Scenario] without the user's document. *)
Definition noUserDoc : World.t := World.withUsers ∅ Scenario.w.

End Scenario2.

(* ===================================================================== *)
(** ** Lemmas on the store primitives *)
(* ===================================================================== *)

Lemma truthy_Some o s : truthy o = Some s ↔ o = Some s ∧ s ≠ "".
Proof.
  unfold truthy. destruct o as [s'|]; [|naive_solver].
  destruct (String.eqb_spec s' ""); naive_solver.
Qed.

Lemma truthy_None o : truthy o = None ↔ o = None ∨ o = Some "".
Proof.
  unfold truthy. destruct o as [s'|]; [|naive_solver].
  destruct (String.eqb_spec s' ""); naive_solver.
Qed.

Lemma matches_inSeriesFrom sid from c :
  matches (mkQuery FBaseId sid from) c = true ↔ inSeriesFrom sid from c.
Proof.
  unfold matches, inSeriesFrom. simpl. rewrite andb_true_iff.
  destruct (Class.baseId c) as [b|]; [|naive_solver].
  destruct (String.eqb_spec b sid); naive_solver.
Qed.

Lemma snapshot_elem q (m : gmap string Class.t) k c :
  (k, c) ∈ snapshot q m ↔ m !! k = Some c ∧ matches q c = true.
Proof.
  unfold snapshot. rewrite elem_of_map_to_list, map_lookup_filter_Some.
  simpl. tauto.
Qed.

Lemma snapshot_NoDup q (m : gmap string Class.t) : NoDup (snapshot q m).*1.
Proof. apply NoDup_fst_map_to_list. Qed.

Lemma snapshot_key q (m : gmap string Class.t) k :
  k ∈ (snapshot q m).*1 ↔ ∃ c, m !! k = Some c ∧ matches q c = true.
Proof.
  rewrite list_elem_of_fmap. split.
  - intros [[k' c] [-> H]]. exists c. by apply snapshot_elem.
  - intros [c H]. exists (k, c). split; [done|]. by apply snapshot_elem.
Qed.

Lemma forEachDoc_keys f docs : forEachDoc f docs = map f docs.*1.
Proof.
  unfold forEachDoc. induction docs as [|[k c] ds IH]; csimpl; [done|].
  by rewrite IH.
Qed.

(** A batch of one write per key on existing, distinct documents goes through
    and rewrites exactly those documents. *)
Lemma applyOps_batch mu (ks : list string) (m : gmap string Class.t) :
  NoDup ks →
  (∀ k, k ∈ ks → is_Some (m !! k)) →
  ∃ m', applyOps (map (batchOp mu) ks) m = Some m' ∧
        ∀ k, m' !! k = if decide (k ∈ ks) then m !! k ≫= mutate mu else m !! k.
Proof.
  revert m. induction ks as [|k0 ks IH]; intros m Hnd Hdom.
  - exists m. split; [done|]. intros k. case_decide; [|done].
    by apply elem_of_nil in H.
  - apply NoDup_cons in Hnd as [Hk0 Hnd].
    destruct (Hdom k0) as [c0 Hc0]; [left|].
    assert (∃ m1, applyOp (batchOp mu k0) m = Some m1 ∧
              (∀ k, m1 !! k =
                    if decide (k = k0) then m !! k ≫= mutate mu else m !! k))
      as (m1 & Hm1 & Hlk1).
    { destruct mu as [u|]; simpl.
      - rewrite Hc0. eexists; split; [done|]. intros k.
        rewrite lookup_alter.
        destruct (decide (k0 = k)) as [->|]; case_decide; try congruence.
        by rewrite Hc0.
      - eexists; split; [done|]. intros k. rewrite lookup_delete.
        destruct (decide (k0 = k)) as [->|]; case_decide; try congruence.
        by rewrite Hc0. }
    destruct (IH m1) as (m' & Hm' & Hlk'); [done| |].
    { intros k Hk. rewrite Hlk1. case_decide as Hkk.
      - subst. done.
      - apply Hdom. by right. }
    exists m'. split.
    { simpl. by rewrite Hm1. }
    intros k. rewrite Hlk', Hlk1.
    destruct (decide (k = k0)) as [->|Hne].
    + rewrite decide_False by done. rewrite decide_True by left. done.
    + destruct (decide (k ∈ ks)) as [Hin|Hnin].
      * rewrite decide_True by (by right). done.
      * rewrite decide_False; [done|]. rewrite elem_of_cons. naive_solver.
Qed.

(* ===================================================================== *)
(** ** Lemmas on the actions *)
(* ===================================================================== *)

Section ActionLemmas.

Variable rt : Runtime.

Lemma writes_logCall c w :
  writes (World.logCall c w) = writes w ++ (if isWrite c then [c] else []).
Proof.
  unfold writes. simpl. rewrite List.filter_app. simpl.
  by destruct (isWrite c).
Qed.

Lemma refreshed_refl w : refreshed w w.
Proof. by repeat split. Qed.

(** [fetchClasses] never throws and only refreshes. *)
Lemma fetchClasses_refreshed w :
  ∃ w', fetchClasses rt w = (Ok tt, w') ∧ refreshed w w'.
Proof.
  unfold fetchClasses. run.
  destruct (truthy _) as [schoolId|]; simpl.
  - eexists; split; [reflexivity|].
    repeat split; simpl; try done. writes_of_log.
  - eexists; split; [reflexivity|]. apply refreshed_refl.
Qed.

(** The actions are instances of [cascade]. *)
Lemma updateClass_cascade classId p all :
  updateClass rt classId p all
  = cascade rt "Error updating class:" Now (MUpdate (SetFields p)) classId all.
Proof. reflexivity. Qed.

Lemma deleteClass_cascade classId all :
  deleteClass rt classId all
  = cascade rt "Error deleting class:" Now MDelete classId all.
Proof. reflexivity. Qed.

Lemma enrollInClass_cascade classId userId all :
  enrollInClass rt classId userId all
  = cascade rt "Error enrolling in class:" TargetDatetime
      (MUpdate (ArrayUnion userId)) classId all.
Proof. reflexivity. Qed.

Lemma unenrollFromClass_cascade classId userId all :
  unenrollFromClass rt classId userId all
  = cascade rt "Error unenrolling from class:" TargetDatetime
      (MUpdate (ArrayRemove userId)) classId all.
Proof. reflexivity. Qed.

(** No document with the id: the action throws and nothing is written. *)
Lemma cascade_not_found label cu mu classId all w :
  World.classes w !! classId = None →
  ∃ w', cascade rt label cu mu classId all w = (Throw classNotFound, w') ∧
        World.classes w' = World.classes w ∧
        World.store w' = World.store w ∧
        writes w' = writes w.
Proof.
  intros Hno. unfold cascade. run.
  rewrite Hno. simpl. eexists; split; [reflexivity|].
  repeat split. writes_of_log.
Qed.

(** The target alone: one single-document write. *)
Lemma cascade_single label cu mu classId (all : bool) w c :
  World.classes w !! classId = Some c →
  (if all then truthy (Class.baseId c) else None) = None →
  ∃ w', cascade rt label cu mu classId all w = (Ok tt, w') ∧
        writes w' = writes w ++ [singleCall mu classId] ∧
        ∀ k, World.classes w' !! k =
             if decide (k = classId) then mutate mu c
             else World.classes w !! k.
Proof.
  intros Hc Hone. unfold cascade. run.
  rewrite Hc, Hone. simpl.
  set (w1 := World.logCall (CGetDoc classId) w).
  assert (∃ w2, single mu classId w1 = (Ok tt, w2) ∧
            writes w2 = writes w ++ [singleCall mu classId] ∧
            ∀ k, World.classes w2 !! k =
                 if decide (k = classId) then mutate mu c
                 else World.classes w !! k) as (w2 & -> & Hw2 & Hlk2).
  { destruct mu as [u|]; simpl.
    - unfold updateDoc. simpl. rewrite Hc. eexists; split; [reflexivity|].
      split; [writes_of_log|].
      intros k. simpl. rewrite lookup_alter.
      destruct (decide (classId = k)) as [->|]; case_decide; try congruence.
      by rewrite Hc.
    - unfold deleteDoc. eexists; split; [reflexivity|].
      split; [writes_of_log|].
      intros k. simpl. rewrite lookup_delete.
      destruct (decide (classId = k)) as [->|]; case_decide; congruence. }
  destruct (fetchClasses_refreshed w2) as (w' & -> & Hdb & _ & Hwr & _).
  exists w'. split; [done|]. split; [congruence|].
  intros k. rewrite Hdb. apply Hlk2.
Qed.

(** The series from the cut-off on: one batch with one write per document of
    the query, and exactly those documents are rewritten. *)
Lemma cascade_series label cu mu classId w c sid :
  World.classes w !! classId = Some c →
  truthy (Class.baseId c) = Some sid →
  ∃ w', cascade rt label cu mu classId true w = (Ok tt, w') ∧
        writes w' = writes w ++
          [CCommit (forEachDoc (batchOp mu)
             (snapshot (mkQuery FBaseId sid (cutoffAt rt cu c w))
                       (World.classes w)))] ∧
        ∀ k, World.classes w' !! k =
             match World.classes w !! k with
             | Some c' =>
                 if decide (inSeriesFrom sid (cutoffAt rt cu c w) c')
                 then mutate mu c' else Some c'
             | None => None
             end.
Proof.
  intros Hc Hsid. unfold cascade. run.
  rewrite Hc, Hsid. simpl.
  set (from := cutoffAt rt cu c w).
  set (q := mkQuery FBaseId sid from).
  set (docs := snapshot q (World.classes w)).
  destruct (applyOps_batch mu docs.*1 (World.classes w)) as (m' & Hm' & Hlk).
  { apply snapshot_NoDup. }
  { intros k Hk. apply snapshot_key in Hk as (c' & -> & _). by eexists. }
  rewrite <- forEachDoc_keys in Hm'.
  assert (∀ k, m' !! k =
            match World.classes w !! k with
            | Some c' => if decide (inSeriesFrom sid from c')
                         then mutate mu c' else Some c'
            | None => None
            end) as Hlk'.
  { intros k. rewrite Hlk. destruct (World.classes w !! k) as [c'|] eqn:Hk.
    - destruct (decide (inSeriesFrom sid from c')) as [Hin|Hnin].
      + rewrite decide_True; [done|]. apply snapshot_key. exists c'.
        split; [done|]. by apply matches_inSeriesFrom.
      + rewrite decide_False; [done|]. intros Hin. apply Hnin.
        apply snapshot_key in Hin as (c'' & Hk' & Hm). rewrite Hk in Hk'.
        injection Hk' as <-. by apply matches_inSeriesFrom.
    - by case_decide. }
  destruct cu; simpl; unfold docs, q, from in Hm'; simpl in Hm'; run;
    rewrite Hm'.
  all: match goal with
       | |- context [fetchClasses rt ?w2] =>
           destruct (fetchClasses_refreshed w2) as (w' & -> & Hdb & _ & Hwr & _)
       end.
  all: exists w'; split; [done|]; split;
    [ rewrite Hwr; writes_of_log | intros k; rewrite Hdb; apply Hlk' ].
Qed.

End ActionLemmas.

Section CascadeOutcomes.

Variable rt : Runtime.

(** [cascade_not_found], [cascade_single] and [cascade_series] in terms of
    [outcome] and [after]. *)
Lemma cascade_absent label cu mu classId all w :
  World.classes w !! classId = None →
  outcome (cascade rt label cu mu classId all) w = Throw classNotFound ∧
  unchanged w (after (cascade rt label cu mu classId all) w).
Proof.
  intros H. unfold outcome, after.
  destruct (cascade_not_found rt label cu mu classId all w H)
    as (w' & -> & ? & ? & ?).
  by repeat split.
Qed.

Lemma cascade_one label cu mu classId (all : bool) w c :
  World.classes w !! classId = Some c →
  all = false ∨ Class.baseId c = None ∨ Class.baseId c = Some "" →
  outcome (cascade rt label cu mu classId all) w = Ok tt ∧
  oneWriteOn mu classId w (after (cascade rt label cu mu classId all) w) ∧
  appliedToOne mu classId (World.classes w)
    (World.classes (after (cascade rt label cu mu classId all) w)).
Proof.
  intros Hc Hone. unfold outcome, after.
  destruct (cascade_single rt label cu mu classId all w c Hc)
    as (w' & -> & Hwr & Hlk).
  { destruct all; [|done]. apply truthy_None. naive_solver. }
  split; [done|]. split; [done|]. intros k. simpl. rewrite Hlk.
  case_decide; [|done]. subst. by rewrite Hc.
Qed.

Lemma cascade_all label cu mu classId w c sid :
  World.classes w !! classId = Some c →
  Class.baseId c = Some sid → sid ≠ "" →
  let from := cutoffAt rt cu c w in
  let w' := after (cascade rt label cu mu classId true) w in
  outcome (cascade rt label cu mu classId true) w = Ok tt ∧
  oneBatchOn mu (inSeriesFrom sid from) w w' ∧
  appliedToSeries mu sid from (World.classes w) (World.classes w').
Proof.
  intros Hc Hb Hne from. unfold outcome, after.
  destruct (cascade_series rt label cu mu classId w c sid Hc)
    as (w' & -> & Hwr & Hlk).
  { apply truthy_Some. done. }
  simpl. split; [done|]. split; [|exact Hlk].
  exists (snapshot (mkQuery FBaseId sid from) (World.classes w)).*1.
  split; [by rewrite <- forEachDoc_keys|]. split; [apply snapshot_NoDup|].
  intros k. rewrite snapshot_key.
  by setoid_rewrite matches_inSeriesFrom.
Qed.

(** Whatever the path, a document is left as it was or rewritten by [mu]. *)
Lemma cascade_frame label cu mu classId all w k c :
  World.classes w !! k = Some c →
  let m' := World.classes (after (cascade rt label cu mu classId all) w) in
  m' !! k = Some c ∨ m' !! k = mutate mu c.
Proof.
  intros Hk. simpl.
  destruct (World.classes w !! classId) as [c0|] eqn:Hc0.
  - destruct (if all then truthy (Class.baseId c0) else None) as [sid|] eqn:Hs.
    + destruct all; [|done]. apply truthy_Some in Hs as [Hb Hne].
      destruct (cascade_all label cu mu classId w c0 sid Hc0 Hb Hne)
        as (_ & _ & Hap).
      rewrite (Hap k), Hk. case_decide; auto.
    + destruct (cascade_one label cu mu classId all w c0 Hc0) as (_ & _ & Hap).
      { destruct all; [|auto]. apply truthy_None in Hs. naive_solver. }
      rewrite (Hap k). case_decide; [subst|auto].
      rewrite Hc0 in Hk. injection Hk as <-. rewrite Hc0. auto.
  - destruct (cascade_absent label cu mu classId all w Hc0) as (_ & -> & _).
    auto.
Qed.

End CascadeOutcomes.

Lemma leb_refl (s : string) : String.leb s s = true.
Proof. by destruct (String.leb_total s s). Qed.

(** With the target's own [datetime] as cut-off, the target is among the
    documents rewritten, whichever path is taken. *)
Lemma cascade_target rt label mu classId all w c :
  World.classes w !! classId = Some c →
  World.classes (after (cascade rt label TargetDatetime mu classId all) w)
    !! classId = mutate mu c.
Proof.
  intros Hc.
  destruct (if all then truthy (Class.baseId c) else None) as [sid|] eqn:Hs.
  - destruct all; [|done]. apply truthy_Some in Hs as [Hb Hne].
    destruct (cascade_all rt label TargetDatetime mu classId w c sid Hc Hb Hne)
      as (_ & _ & Hap).
    rewrite (Hap classId), Hc. simpl. rewrite decide_True; [done|].
    split; [done|apply leb_refl].
  - destruct (cascade_one rt label TargetDatetime mu classId all w c Hc)
      as (_ & _ & Hap).
    { destruct all; [|auto]. apply truthy_None in Hs. naive_solver. }
    rewrite (Hap classId), decide_True by done. by rewrite Hc.
Qed.

(* ===================================================================== *)
(** ** The model at work on the concrete school *)
(* ===================================================================== *)

Example weekly_first_dates :
  take 3 (generateRecurringDates 1736186400000 (1736186400000 + 365 * msPerDay))
  = [1736186400000; 1736791200000; 1737396000000].
Proof. reflexivity. Qed.

Example updateClass_series_calls :
  World.calls (after (updateClass Scenario.rt "a1" Scenario.retitle true)
                 Scenario.w)
  = [CGetDoc "a1";
     CGetDocs (mkQuery FBaseId "series-1" "2025-03-05T00:00:00.000Z");
     CCommit [BUpdate "a1" (SetFields Scenario.retitle);
              BUpdate "a2" (SetFields Scenario.retitle)];
     CGetDocs (mkQuery FSchoolId "s1" "2025-03-05T00:00:00.000Z")].
Proof. vm_compute. reflexivity. Qed.

Example deleteClass_unknown_id :
  outcome (deleteClass Scenario.rt "zz" true) Scenario.w = Throw classNotFound
  ∧ World.console (after (deleteClass Scenario.rt "zz" true) Scenario.w)
    = ["Error deleting class:"].
Proof. split; reflexivity. Qed.

Example enroll_series_from_a1 :
  Class.enrolledStudents <$>
    World.classes (after (enrollInClass Scenario.rt "a1" "u1" true) Scenario.w)
  = list_to_map [("c1", []); ("c2", []); ("a0", []); ("a1", ["u1"]);
                 ("a2", ["u2"; "u1"]); ("a3", [])].
Proof. vm_compute. reflexivity. Qed.

Example addClass_first_two_base_ids :
  (λ w', (Class.baseId <$> World.classes w' !! "AAAAAAAAAAAAAAAAAAAB",
          Class.baseId <$> World.classes w' !! "AAAAAAAAAAAAAAAAAAAC",
          World.classes w' !! "AAAAAAAAAAAAAAAAAAAA"))
    (after (addClass Scenario.rt Scenario.weekly) Scenario.w)
  = (Some None, Some (Some "00000000-0000-4000-8000-0000000000AA"), None).
Proof. vm_compute. reflexivity. Qed.

Example jsLength_counts_utf16_units :
  (jsLength "é", jsLength "ééé", jsLength "a😀b", String.length "é")
  = (1, 3, 4, 2)%nat.
Proof. reflexivity. Qed.

Example createProfileSchema_short_name :
  createProfileSchema (λ _, true) "ann@example.org"
    (ProfileInputs.mk "é" "ann@example.org" None None None)
  = [mkIssue "name" "Le nom doit faire au moins 2 caractères"].
Proof. reflexivity. Qed.

(* ===================================================================== *)
(** ** The properties *)
(* ===================================================================== *)

(** *** C10 *)

(** C10.  [fetchClasses] run while no user is published, or while the
    published user has no [schoolId], returns normally and leaves the whole
    world as it was: no repository call is logged (so no query is made), the
    published class list and the rest of the store state are unchanged,
    nothing is printed. *)
Theorem fetchClasses_without_school rt w :
  Store.user (World.store w) = None ∨
  (∃ u, Store.user (World.store w) = Some u ∧ User.schoolId u = None) →
  fetchClasses rt w = (Ok tt, w).
Proof.
  intros H. unfold fetchClasses. run.
  destruct H as [-> | (u & -> & Hs)]; simpl; [done|]. by rewrite Hs.
Qed.

Lemma fetchClasses_without_school_witness :
  fetchClasses Scenario.rt Scenario.signedOut = (Ok tt, Scenario.signedOut).
Proof. apply fetchClasses_without_school. left. reflexivity. Defined.

(** *** C4 *)

(** C4.  [updateClass] and [deleteClass] called with the series flag on a
    class whose [baseId] is null (the first occurrence of a series) issue one
    single-document write on the target: the target is patched
    (respectively removed) and every other document of the collection is
    what it was. *)
Theorem first_occurrence_alone rt w classId patch c :
  World.classes w !! classId = Some c →
  Class.baseId c = None →
  let up := updateClass rt classId patch true in
  let del := deleteClass rt classId true in
  (outcome up w = Ok tt ∧
   writes (after up w) = writes w ++ [CUpdateDoc classId (SetFields patch)] ∧
   World.classes (after up w) !! classId = Some (Patch.apply patch c) ∧
   ∀ k, k ≠ classId → World.classes (after up w) !! k = World.classes w !! k) ∧
  (outcome del w = Ok tt ∧
   writes (after del w) = writes w ++ [CDeleteDoc classId] ∧
   World.classes (after del w) !! classId = None ∧
   ∀ k, k ≠ classId → World.classes (after del w) !! k = World.classes w !! k).
Proof.
  intros Hc Hb up del. subst up del.
  rewrite updateClass_cascade, deleteClass_cascade.
  split.
  - destruct (cascade_one rt "Error updating class:" Now
                (MUpdate (SetFields patch)) classId true w c Hc)
      as (Hr & Hw & Hap); [auto|].
    split; [done|]. split; [done|]. split.
    + rewrite (Hap classId), decide_True by done. by rewrite Hc.
    + intros k Hk. by rewrite (Hap k), decide_False.
  - destruct (cascade_one rt "Error deleting class:" Now MDelete
                classId true w c Hc) as (Hr & Hw & Hap); [auto|].
    split; [done|]. split; [done|]. split.
    + rewrite (Hap classId), decide_True by done. by rewrite Hc.
    + intros k Hk. by rewrite (Hap k), decide_False.
Qed.

Lemma first_occurrence_alone_witness :
  World.classes (after (updateClass Scenario.rt "a0" Scenario.retitle true)
                   Scenario.w) !! "a1" = Some Scenario.a1 ∧
  World.classes (after (deleteClass Scenario.rt "a0" true)
                   Scenario.w) !! "a1" = Some Scenario.a1.
Proof.
  destruct (first_occurrence_alone Scenario.rt Scenario.w "a0" Scenario.retitle
              Scenario.a0) as [(_ & _ & _ & Hu) (_ & _ & _ & Hd)].
  - reflexivity.
  - reflexivity.
  - split.
    + rewrite Hu; [reflexivity | discriminate].
    + rewrite Hd; [reflexivity | discriminate].
Defined.

(** *** C2 *)

(** C2, as stated, fails when the target's [baseId] is the empty string: it is
    not null, yet [updateClass] with the series flag patches the target alone.
    In the school of [Scenario], [c1] and [c2] carry the [baseId] [""] and
    [c2] is not before the clock; after the call the collection is not the
    one in which the patch went to the documents of that series from now
    on. *)
Lemma update_series_empty_id_counterexample :
  World.classes Scenario.w !! "c1" = Some Scenario.c1 ∧
  Class.baseId Scenario.c1 = Some "" ∧
  ¬ appliedToSeries (MUpdate (SetFields Scenario.retitle)) ""
      (nowISO Scenario.rt (World.clock Scenario.w))
      (World.classes Scenario.w)
      (World.classes
         (after (updateClass Scenario.rt "c1" Scenario.retitle true)
            Scenario.w)).
Proof.
  split; [reflexivity|]. split; [reflexivity|].
  intros H. specialize (H "c2"). vm_compute in H. discriminate H.
Qed.

(** C2 (amended: the series path needs a [baseId] that is neither null nor
    the empty string).  [updateClass] and [deleteClass]:
    - with no document under the id, throw "Class not found" and change
      nothing;
    - with the series flag on a target whose [baseId] is a non-empty string,
      issue exactly one write, a batch commit with one update (respectively
      delete) per class that has this [baseId] and whose [datetime] is not
      before the clock reading, and the collection afterwards is the old one
      with the patch applied to (respectively without) exactly those classes;
    - otherwise (flag off, [baseId] null or empty) issue exactly one
      single-document write, on the target, and change no other document. *)
Theorem update_delete_resolution rt w classId patch (all : bool) :
  let db := World.classes w in
  let now := nowISO rt (World.clock w) in
  let up := updateClass rt classId patch all in
  let del := deleteClass rt classId all in
  (db !! classId = None →
     outcome up w = Throw classNotFound ∧ unchanged w (after up w) ∧
     outcome del w = Throw classNotFound ∧ unchanged w (after del w)) ∧
  (∀ c sid,
     db !! classId = Some c → all = true →
     Class.baseId c = Some sid → sid ≠ "" →
     (outcome up w = Ok tt ∧
      oneBatchOn (MUpdate (SetFields patch)) (inSeriesFrom sid now) w (after up w) ∧
      appliedToSeries (MUpdate (SetFields patch)) sid now db
        (World.classes (after up w))) ∧
     (outcome del w = Ok tt ∧
      oneBatchOn MDelete (inSeriesFrom sid now) w (after del w) ∧
      appliedToSeries MDelete sid now db (World.classes (after del w)))) ∧
  (∀ c,
     db !! classId = Some c →
     all = false ∨ Class.baseId c = None ∨ Class.baseId c = Some "" →
     (outcome up w = Ok tt ∧
      oneWriteOn (MUpdate (SetFields patch)) classId w (after up w) ∧
      appliedToOne (MUpdate (SetFields patch)) classId db
        (World.classes (after up w))) ∧
     (outcome del w = Ok tt ∧
      oneWriteOn MDelete classId w (after del w) ∧
      appliedToOne MDelete classId db (World.classes (after del w)))).
Proof.
  intros db now up del. subst db now up del.
  rewrite updateClass_cascade, deleteClass_cascade.
  split; [|split].
  - intros Hno.
    destruct (cascade_absent rt "Error updating class:" Now
                (MUpdate (SetFields patch)) classId all w Hno) as [? ?].
    destruct (cascade_absent rt "Error deleting class:" Now MDelete
                classId all w Hno) as [? ?].
    done.
  - intros c sid Hc -> Hb Hne. split.
    + exact (cascade_all rt "Error updating class:" Now
               (MUpdate (SetFields patch)) classId w c sid Hc Hb Hne).
    + exact (cascade_all rt "Error deleting class:" Now MDelete
               classId w c sid Hc Hb Hne).
  - intros c Hc Hone. split.
    + exact (cascade_one rt "Error updating class:" Now
               (MUpdate (SetFields patch)) classId all w c Hc Hone).
    + exact (cascade_one rt "Error deleting class:" Now MDelete
               classId all w c Hc Hone).
Qed.

Lemma update_delete_resolution_witness :
  appliedToSeries (MUpdate (SetFields Scenario.retitle)) "series-1"
    "2025-03-05T00:00:00.000Z" (World.classes Scenario.w)
    (World.classes
       (after (updateClass Scenario.rt "a1" Scenario.retitle true) Scenario.w)).
Proof.
  destruct (update_delete_resolution Scenario.rt Scenario.w "a1"
              Scenario.retitle true) as (_ & Hseries & _).
  destruct (Hseries Scenario.a1 "series-1") as [(_ & _ & H) _].
  - reflexivity.
  - reflexivity.
  - reflexivity.
  - discriminate.
  - exact H.
Defined.

(** *** C9 *)

Lemma ltb_leb_false (a b : string) :
  String.ltb a b = true → String.leb b a = false.
Proof.
  unfold String.ltb, String.leb. rewrite (String.compare_antisym a b).
  by destruct (String.compare b a).
Qed.

(** C9, as stated, fails when the target's [baseId] is the empty string: [c1]
    lies before the clock reading and its [baseId] is not null, yet
    [updateClass] with the series flag patches it and [deleteClass] with the
    series flag removes it. *)
Lemma past_target_empty_id_counterexample :
  World.classes Scenario.w !! "c1" = Some Scenario.c1 ∧
  Class.baseId Scenario.c1 = Some "" ∧
  String.ltb (Class.datetime Scenario.c1)
    (nowISO Scenario.rt (World.clock Scenario.w)) = true ∧
  World.classes
    (after (updateClass Scenario.rt "c1" Scenario.retitle true) Scenario.w)
    !! "c1" = Some (Patch.apply Scenario.retitle Scenario.c1) ∧
  Patch.apply Scenario.retitle Scenario.c1 ≠ Scenario.c1 ∧
  World.classes (after (deleteClass Scenario.rt "c1" true) Scenario.w)
    !! "c1" = None.
Proof. repeat split; try reflexivity. vm_compute. discriminate. Qed.

(** C9 (amended: the [baseId] is neither null nor the empty string).
    [updateClass] and [deleteClass] called with the series flag on a class
    whose [baseId] is a non-empty string and whose own [datetime] is strictly
    before the clock reading leave the targeted document as it was; every
    document they do change has the target's [baseId] and a [datetime] not
    before the clock reading. *)
Theorem past_target_untouched rt w classId patch c sid :
  World.classes w !! classId = Some c →
  Class.baseId c = Some sid → sid ≠ "" →
  String.ltb (Class.datetime c) (nowISO rt (World.clock w)) = true →
  let now := nowISO rt (World.clock w) in
  let up := World.classes (after (updateClass rt classId patch true) w) in
  let del := World.classes (after (deleteClass rt classId true) w) in
  up !! classId = Some c ∧
  del !! classId = Some c ∧
  ∀ k, up !! k ≠ World.classes w !! k ∨ del !! k ≠ World.classes w !! k →
       ∃ c', World.classes w !! k = Some c' ∧ inSeriesFrom sid now c'.
Proof.
  intros Hc Hb Hne Hlt now up del. subst now up del.
  rewrite updateClass_cascade, deleteClass_cascade.
  destruct (cascade_all rt "Error updating class:" Now
              (MUpdate (SetFields patch)) classId w c sid Hc Hb Hne)
    as (_ & _ & Hup).
  destruct (cascade_all rt "Error deleting class:" Now MDelete
              classId w c sid Hc Hb Hne) as (_ & _ & Hdel).
  simpl in Hup, Hdel.
  assert (¬ inSeriesFrom sid (nowISO rt (World.clock w)) c) as Hout.
  { intros [_ Hle]. apply ltb_leb_false in Hlt. congruence. }
  split; [|split].
  - by rewrite (Hup classId), Hc, decide_False.
  - by rewrite (Hdel classId), Hc, decide_False.
  - intros k. rewrite (Hup k), (Hdel k).
    destruct (World.classes w !! k) as [c'|]; [|naive_solver].
    case_decide; [eauto|naive_solver].
Qed.

Lemma past_target_untouched_witness :
  World.classes
    (after (updateClass Scenario.rt "a3" Scenario.retitle true) Scenario.w)
    !! "a3" = Some Scenario.a3 ∧
  World.classes (after (deleteClass Scenario.rt "a3" true) Scenario.w)
    !! "a3" = Some Scenario.a3.
Proof.
  destruct (past_target_untouched Scenario.rt Scenario.w "a3" Scenario.retitle
              Scenario.a3 "series-1") as (Hu & Hd & _).
  - reflexivity.
  - reflexivity.
  - discriminate.
  - reflexivity.
  - split; [exact Hu | exact Hd].
Defined.

(** *** C3 *)

(** C3, as stated, fails when the target's [baseId] is the empty string: [c1]
    and [c2] share the non-null [baseId] [""] and [c2] is later than [c1],
    yet [enrollInClass] with the series flag on [c1] enrolls in [c1] alone. *)
Lemma enroll_series_empty_id_counterexample :
  World.classes Scenario.w !! "c1" = Some Scenario.c1 ∧
  Class.baseId Scenario.c1 = Some "" ∧
  ¬ appliedToSeries (MUpdate (ArrayUnion "u1")) ""
      (Class.datetime Scenario.c1)
      (World.classes Scenario.w)
      (World.classes (after (enrollInClass Scenario.rt "c1" "u1" true)
                        Scenario.w)).
Proof.
  split; [reflexivity|]. split; [reflexivity|].
  intros H. specialize (H "c2"). vm_compute in H. discriminate H.
Qed.

(** C3 (amended: the [baseId] is neither null nor the empty string).
    [enrollInClass] and [unenrollFromClass] called with the series flag on an
    existing class whose [baseId] is a non-empty string issue exactly one
    write, a batch commit with one set-union (respectively set-removal) update
    per class that has this [baseId] and whose [datetime] is not before the
    target's own [datetime]; the collection afterwards is the old one with the
    membership change applied to exactly those classes.  The clock is not
    consulted for the cut-off. *)
Theorem enrollment_series_cutoff rt w classId userId c sid :
  World.classes w !! classId = Some c →
  Class.baseId c = Some sid → sid ≠ "" →
  let from := Class.datetime c in
  let en := enrollInClass rt classId userId true in
  let un := unenrollFromClass rt classId userId true in
  (outcome en w = Ok tt ∧
   oneBatchOn (MUpdate (ArrayUnion userId)) (inSeriesFrom sid from) w (after en w) ∧
   appliedToSeries (MUpdate (ArrayUnion userId)) sid from (World.classes w)
     (World.classes (after en w))) ∧
  (outcome un w = Ok tt ∧
   oneBatchOn (MUpdate (ArrayRemove userId)) (inSeriesFrom sid from) w (after un w) ∧
   appliedToSeries (MUpdate (ArrayRemove userId)) sid from (World.classes w)
     (World.classes (after un w))).
Proof.
  intros Hc Hb Hne from en un. subst from en un.
  rewrite enrollInClass_cascade, unenrollFromClass_cascade. split.
  - exact (cascade_all rt "Error enrolling in class:" TargetDatetime
             (MUpdate (ArrayUnion userId)) classId w c sid Hc Hb Hne).
  - exact (cascade_all rt "Error unenrolling from class:" TargetDatetime
             (MUpdate (ArrayRemove userId)) classId w c sid Hc Hb Hne).
Qed.

Lemma enrollment_series_cutoff_witness :
  appliedToSeries (MUpdate (ArrayUnion "u1")) "series-1"
    "2025-03-10T18:00:00.000Z" (World.classes Scenario.w)
    (World.classes (after (enrollInClass Scenario.rt "a1" "u1" true) Scenario.w)).
Proof.
  destruct (enrollment_series_cutoff Scenario.rt Scenario.w "a1" "u1"
              Scenario.a1 "series-1") as [(_ & _ & H) _].
  - reflexivity.
  - reflexivity.
  - discriminate.
  - exact H.
Defined.

(** *** C6 *)

Lemma arrayUnion_present x l : x ∈ l → arrayUnion x l = l.
Proof. intros H. unfold arrayUnion. by rewrite decide_True. Qed.

Lemma arrayRemove_absent x l : x ∉ l → arrayRemove x l = l.
Proof.
  intros H. unfold arrayRemove. induction l as [|y l IH]; [done|].
  rewrite filter_cons. rewrite not_elem_of_cons in H. destruct H as [Hxy Hl].
  rewrite decide_True by congruence. by rewrite IH.
Qed.

Lemma withEnrolled_same f c :
  f (Class.enrolledStudents c) = Class.enrolledStudents c →
  Class.withEnrolled f c = c.
Proof. intros H. destruct c. unfold Class.withEnrolled. simpl in *. by rewrite H. Qed.

(** C6.  Whatever class is targeted and whichever path is taken (single
    occurrence or series), [enrollInClass] leaves every class in which the
    user is already enrolled exactly as it was, and [unenrollFromClass] leaves
    every class in which the user is not enrolled exactly as it was; on the
    membership list itself, the set-union of a member and the set-removal of
    a non-member are the identity. *)
Theorem enrollment_idempotent rt w classId userId all k c :
  World.classes w !! k = Some c →
  (userId ∈ Class.enrolledStudents c →
     arrayUnion userId (Class.enrolledStudents c) = Class.enrolledStudents c ∧
     World.classes (after (enrollInClass rt classId userId all) w) !! k
       = Some c) ∧
  (userId ∉ Class.enrolledStudents c →
     arrayRemove userId (Class.enrolledStudents c) = Class.enrolledStudents c ∧
     World.classes (after (unenrollFromClass rt classId userId all) w) !! k
       = Some c).
Proof.
  intros Hk. rewrite enrollInClass_cascade, unenrollFromClass_cascade. split.
  - intros Hin. split; [by apply arrayUnion_present|].
    destruct (cascade_frame rt "Error enrolling in class:" TargetDatetime
                (MUpdate (ArrayUnion userId)) classId all w k c Hk)
      as [H|H]; [done|].
    rewrite H. simpl. f_equal. apply withEnrolled_same.
    by apply arrayUnion_present.
  - intros Hout. split; [by apply arrayRemove_absent|].
    destruct (cascade_frame rt "Error unenrolling from class:" TargetDatetime
                (MUpdate (ArrayRemove userId)) classId all w k c Hk)
      as [H|H]; [done|].
    rewrite H. simpl. f_equal. apply withEnrolled_same.
    by apply arrayRemove_absent.
Qed.

Lemma enrollment_idempotent_witness :
  World.classes (after (enrollInClass Scenario.rt "a1" "u2" true) Scenario.w)
    !! "a2" = Some Scenario.a2 ∧
  World.classes (after (unenrollFromClass Scenario.rt "a1" "u1" true) Scenario.w)
    !! "a2" = Some Scenario.a2.
Proof.
  destruct (enrollment_idempotent Scenario.rt Scenario.w "a1" "u2" true "a2"
              Scenario.a2) as [Hen _]; [reflexivity|].
  destruct (enrollment_idempotent Scenario.rt Scenario.w "a1" "u1" true "a2"
              Scenario.a2) as [_ Hun]; [reflexivity|].
  split.
  - apply Hen. apply (bool_decide_unpack _). reflexivity.
  - apply Hun. apply (bool_decide_unpack _). reflexivity.
Defined.

(** *** C7 *)

Lemma enrollInClass_outcome rt w classId userId all :
  outcome (enrollInClass rt classId userId all) w =
  match World.classes w !! classId with
  | Some _ => Ok tt
  | None => Throw classNotFound
  end.
Proof.
  rewrite enrollInClass_cascade.
  destruct (World.classes w !! classId) as [c|] eqn:Hc.
  - destruct (if all then truthy (Class.baseId c) else None) as [sid|] eqn:Hs.
    + destruct all; [|done]. apply truthy_Some in Hs as [Hb Hne].
      by destruct (cascade_all rt "Error enrolling in class:" TargetDatetime
                     (MUpdate (ArrayUnion userId)) classId w c sid Hc Hb Hne)
        as (? & _).
    + destruct (cascade_one rt "Error enrolling in class:" TargetDatetime
                  (MUpdate (ArrayUnion userId)) classId all w c Hc)
        as (? & _); [|done].
      destruct all; [|auto]. apply truthy_None in Hs. naive_solver.
  - by destruct (cascade_absent rt "Error enrolling in class:" TargetDatetime
                   (MUpdate (ArrayUnion userId)) classId all w Hc) as (? & _).
Qed.

Lemma full_class_overflows userId c :
  userId ∉ Class.enrolledStudents c →
  ClassCard.isFull c = true →
  ¬ withinCapacity (Class.withEnrolled (arrayUnion userId) c).
Proof.
  intros Hout Hfull. unfold ClassCard.isFull in Hfull.
  apply Z.leb_le in Hfull. unfold withinCapacity, arrayUnion. simpl.
  rewrite decide_False by done. rewrite length_app. simpl. lia.
Qed.

(** C7.  [enrollInClass] checks no capacity on either path.  Whether it
    succeeds depends only on the existence of the target document.  On every
    existing target, with or without the series flag, the target is rewritten
    with the user added, and with the series flag on a non-empty [baseId] so
    is every class of the series from the target's [datetime] on, whatever
    [maxStudents] says: a class that is full and does not list the user holds
    more students than [maxStudents] afterwards.  The one check is the
    caller's, on the class shown on the card ([ClassCard.enrollDisabled]), and
    there is a state in which every class is within capacity and the card's
    check lets the user enroll, and after the series-wide enrollment launched
    from that card a class of the series holds more students than
    [maxStudents]. *)
Theorem capacity_not_enforced :
  (∀ rt w classId userId all,
     outcome (enrollInClass rt classId userId all) w =
     match World.classes w !! classId with
     | Some _ => Ok tt
     | None => Throw classNotFound
     end) ∧
  (∀ rt w classId userId all c,
     World.classes w !! classId = Some c →
     World.classes (after (enrollInClass rt classId userId all) w) !! classId
       = Some (Class.withEnrolled (arrayUnion userId) c) ∧
     (userId ∉ Class.enrolledStudents c → ClassCard.isFull c = true →
      ¬ withinCapacity (Class.withEnrolled (arrayUnion userId) c))) ∧
  (∀ rt w classId userId c sid k c',
     World.classes w !! classId = Some c →
     Class.baseId c = Some sid → sid ≠ "" →
     World.classes w !! k = Some c' →
     inSeriesFrom sid (Class.datetime c) c' →
     World.classes (after (enrollInClass rt classId userId true) w) !! k
       = Some (Class.withEnrolled (arrayUnion userId) c') ∧
     (userId ∉ Class.enrolledStudents c' → ClassCard.isFull c' = true →
      ¬ withinCapacity (Class.withEnrolled (arrayUnion userId) c'))) ∧
  ∃ rt w target,
    map_Forall (λ _ c, withinCapacity c) (World.classes w) ∧
    World.classes w !! Class.id target = Some target ∧
    ClassCard.enrollDisabled target (Store.user (World.store w)) = false ∧
    ∃ k c,
      World.classes (after (ClassCard.handleEnrollment rt target true) w) !! k
        = Some c ∧
      ¬ withinCapacity c.
Proof.
  split; [apply enrollInClass_outcome|]. split; [|split].
  - intros rt w classId userId all c Hc. split.
    + rewrite enrollInClass_cascade.
      by rewrite (cascade_target rt _ _ classId all w c Hc).
    + apply full_class_overflows.
  - intros rt w classId userId c sid k c' Hc Hb Hne Hk Hin. split.
    + rewrite enrollInClass_cascade.
      destruct (cascade_all rt "Error enrolling in class:" TargetDatetime
                  (MUpdate (ArrayUnion userId)) classId w c sid Hc Hb Hne)
        as (_ & _ & Hap).
      simpl in Hap. by rewrite (Hap k), Hk, decide_True.
    + apply full_class_overflows.
  - exists Scenario.rt, Scenario.w, Scenario.a1.
    split; [|split; [|split]].
    + apply (bool_decide_unpack _). vm_compute. reflexivity.
    + reflexivity.
    + reflexivity.
    + exists "a2", (Class.withEnrolled (λ _, ["u2"; "u1"]) Scenario.a2).
      split; [vm_compute; reflexivity|].
      unfold withinCapacity. simpl. lia.
Qed.

Lemma capacity_not_enforced_witness :
  withinCapacity Scenario.a2 ∧
  World.classes (after (enrollInClass Scenario.rt "a2" "u1" false) Scenario.w)
    !! "a2" = Some (Class.withEnrolled (arrayUnion "u1") Scenario.a2) ∧
  ¬ withinCapacity (Class.withEnrolled (arrayUnion "u1") Scenario.a2) ∧
  withinCapacity Scenario.a2 ∧
  World.classes (after (enrollInClass Scenario.rt "a1" "u1" true) Scenario.w)
    !! "a2" = Some (Class.withEnrolled (arrayUnion "u1") Scenario.a2).
Proof.
  destruct capacity_not_enforced as (_ & Hone & Hall & _).
  destruct (Hone Scenario.rt Scenario.w "a2" "u1" false Scenario.a2)
    as [Hl Hov]; [reflexivity|].
  destruct (Hall Scenario.rt Scenario.w "a1" "u1" Scenario.a1 "series-1" "a2"
              Scenario.a2) as [Hs _].
  - reflexivity.
  - reflexivity.
  - discriminate.
  - reflexivity.
  - split; reflexivity.
  - assert (withinCapacity Scenario.a2) as Hin
      by (unfold withinCapacity; simpl; lia).
    split; [exact Hin|]. split; [exact Hl|]. split; [|split; [exact Hin|exact Hs]].
    apply Hov; [|reflexivity]. apply (bool_decide_unpack _). reflexivity.
Defined.

(** *** C8 *)

(** C8, as stated, fails: the core does validate the current password.  An
    email change submitted to [updateProfile] with no current password is
    rejected by the core itself, which throws its own error. *)
Lemma updateProfile_validates_counterexample :
  ProfileData.email Scenario.emailChange ≠ User.email Scenario.u1 ∧
  ProfileData.currentPassword Scenario.emailChange = None ∧
  Store.user (World.store Scenario.w) = Some Scenario.u1 ∧
  outcome (updateProfile Scenario.emailChange) Scenario.w
    = Throw (JsError
        "Mot de passe actuel requis pour modifier email ou mot de passe").
Proof. split; [discriminate|]. repeat split. Qed.

Lemma elem_of_issueIf b p m i :
  i ∈ issueIf b p m ↔ b = true ∧ i = mkIssue p m.
Proof.
  unfold issueIf. destruct b.
  - rewrite list_elem_of_singleton. naive_solver.
  - rewrite elem_of_nil. naive_solver.
Qed.

Lemma mismatch_reported isEmail initialEmail (inputs : ProfileInputs.t) :
  is_Some (truthy (ProfileInputs.newPassword inputs)) →
  ProfileInputs.newPassword inputs ≠ ProfileInputs.confirmPassword inputs →
  confirmPasswordIssue ∈ createProfileSchema isEmail initialEmail inputs.
Proof.
  intros [p Hp] Hne. unfold createProfileSchema. rewrite !elem_of_app.
  do 3 right. rewrite Hp. rewrite elem_of_app. right.
  apply elem_of_issueIf. split; [|done]. by apply bool_decide_eq_true_2.
Qed.

(** C8 (amended).  A credential change (another email or a new password)
    submitted without the current password is rejected by the input layer
    (the schema reports an issue on [currentPassword]) and also by the core:
    [updateProfile], called by a signed-in user, throws its "current password
    required" error before any identity or repository call, leaving the world
    as it was but for the console line.  A new password that differs from its
    confirmation is rejected by the input layer only: the schema reports an
    issue on [confirmPassword], the form makes no call, and what the core does
    on submitted values does not depend on the confirmation. *)
Theorem credential_checks isEmail w initialEmail (inputs : ProfileInputs.t)
    (data : ProfileData.t) :
  ((ProfileInputs.email inputs ≠ initialEmail
    ∨ is_Some (truthy (ProfileInputs.newPassword inputs))) →
   truthy (ProfileInputs.currentPassword inputs) = None →
   currentPasswordIssue ∈ createProfileSchema isEmail initialEmail inputs) ∧
  (∀ user account,
     Store.user (World.store w) = Some user →
     World.currentUser w = Some account →
     (ProfileData.email data ≠ User.email user
      ∨ is_Some (truthy (ProfileData.newPassword data))) →
     truthy (ProfileData.currentPassword data) = None →
     updateProfile data w
     = (Throw currentPasswordRequired,
        World.logConsole "Error updating profile:" w)) ∧
  (is_Some (truthy (ProfileInputs.newPassword inputs)) →
   ProfileInputs.newPassword inputs ≠ ProfileInputs.confirmPassword inputs →
   confirmPasswordIssue ∈ createProfileSchema isEmail initialEmail inputs ∧
   ∃ issues, handleSubmit isEmail inputs w = (Ok (Invalid issues), w)) ∧
  (∀ confirm,
     onSubmit (withConfirmPassword confirm inputs) w = onSubmit inputs w).
Proof.
  split; [|split; [|split]].
  - intros Hneeds Hcur. unfold createProfileSchema.
    rewrite !elem_of_app. right. right. left.
    apply elem_of_issueIf. split; [|done].
    rewrite Hcur. rewrite andb_true_iff. split; [|done].
    rewrite orb_true_iff. destruct Hneeds as [Hne|Hnew].
    + left. destruct (String.eqb_spec (ProfileInputs.email inputs) initialEmail);
        [congruence|done].
    + right. by apply bool_decide_eq_true_2.
  - intros user account Hu Ha Hneeds Hcur.
    unfold updateProfile. run. rewrite Hu, Ha. simpl.
    assert (negb (String.eqb (ProfileData.email data) (User.email user))
            || bool_decide (is_Some (truthy (ProfileData.newPassword data)))
            = true) as ->.
    { rewrite orb_true_iff. destruct Hneeds as [Hne|Hnew].
      - left. destruct (String.eqb_spec (ProfileData.email data) (User.email user));
          [congruence|done].
      - right. by apply bool_decide_eq_true_2. }
    by rewrite Hcur.
  - intros Hnew Hne. split; [by apply mismatch_reported|].
    unfold handleSubmit. run.
    set (ie := default "" _).
    pose proof (mismatch_reported isEmail ie inputs Hnew Hne) as Hin.
    destruct (createProfileSchema isEmail ie inputs) as [|i issues].
    + by apply elem_of_nil in Hin.
    + by eexists.
  - intros confirm. reflexivity.
Qed.

Lemma credential_checks_witness :
  updateProfile Scenario.emailChange Scenario.w
  = (Throw currentPasswordRequired,
     World.logConsole "Error updating profile:" Scenario.w) ∧
  confirmPasswordIssue
    ∈ createProfileSchema (λ _, true) "ann@example.org" Scenario.mismatch.
Proof.
  destruct (credential_checks (λ _, true) Scenario.w "ann@example.org"
              Scenario.mismatch Scenario.emailChange)
    as (_ & Hcore & Hform & _).
  split.
  - apply (Hcore Scenario.u1 (Account.mk "u1" "ann@example.org" "secret1")).
    + reflexivity.
    + reflexivity.
    + left. discriminate.
    + reflexivity.
  - apply Hform.
    + by eexists.
    + discriminate.
Defined.

(** *** C5 *)

(** The [i]-th generated date is [i] weeks after the start, and dates are
    generated as long as they fall before the horizon. *)
Lemma generateRecurringDates_lookup start horizonEnd (i : nat) d :
  generateRecurringDates start horizonEnd !! i = Some d ↔
  d = start + Z.of_nat i * msPerWeek ∧ d < horizonEnd.
Proof.
  revert i d. funelim (generateRecurringDates start horizonEnd);
    intros i d; clear Heqcall.
  - destruct i as [|i]; simpl.
    + split; [intros [= <-]; lia | intros [-> _]; f_equal; lia].
    + rewrite H. unfold msPerWeek, msPerDay in *. lia.
  - rewrite lookup_nil. unfold msPerWeek, msPerDay. split; [done|lia].
Qed.

(** C5.  (The generator is modelled from the spec.)  For a horizon one year
    after the start, the generated sequence begins with the start, has 53
    elements, its [i]-th element is the start plus [i] weeks and lies in
    [[start, horizonEnd)], consecutive elements are exactly 7 days apart and
    the sequence is strictly increasing.  Being the value of a total function
    on the two instants, it is finite and determined by them. *)
Theorem weekly_occurrences start horizonEnd :
  oneYearAfter start horizonEnd →
  let dates := generateRecurringDates start horizonEnd in
  dates !! 0%nat = Some start ∧
  length dates = 53%nat ∧
  (∀ (i : nat) d, dates !! i = Some d →
     d = start + Z.of_nat i * msPerWeek ∧ start ≤ d < horizonEnd) ∧
  (∀ (i : nat) a b, dates !! i = Some a → dates !! S i = Some b →
     b - a = 7 * msPerDay) ∧
  (∀ (i j : nat) a b, (i < j)%nat → dates !! i = Some a → dates !! j = Some b →
     a < b).
Proof.
  intros [Hlo Hhi] dates. subst dates. unfold msPerDay in Hlo, Hhi.
  split; [|split; [|split; [|split]]].
  - apply generateRecurringDates_lookup. unfold msPerWeek, msPerDay. lia.
  - apply Nat.le_antisymm.
    + apply Nat.nlt_ge. intros Hlt. apply lookup_lt_is_Some_2 in Hlt as [d Hd].
      apply generateRecurringDates_lookup in Hd.
      unfold msPerWeek, msPerDay in Hd. lia.
    + apply (lookup_lt_is_Some_1 _ 52).
      exists (start + Z.of_nat 52 * msPerWeek).
      apply generateRecurringDates_lookup. unfold msPerWeek, msPerDay. lia.
  - intros i d Hd. apply generateRecurringDates_lookup in Hd.
    unfold msPerWeek, msPerDay in *. lia.
  - intros i a b Ha Hb. apply generateRecurringDates_lookup in Ha, Hb.
    unfold msPerWeek, msPerDay in *. lia.
  - intros i j a b Hij Ha Hb. apply generateRecurringDates_lookup in Ha, Hb.
    unfold msPerWeek, msPerDay in *. nia.
Qed.

Lemma weekly_occurrences_witness :
  length (generateRecurringDates 1736186400000
            (1736186400000 + 365 * msPerDay)) = 53%nat.
Proof.
  apply (weekly_occurrences 1736186400000 (1736186400000 + 365 * msPerDay)).
  unfold oneYearAfter, msPerDay. lia.
Defined.

(** *** C1 *)

Lemma queueOccurrences_run rt classData baseId dates index batch w :
  queueOccurrences rt classData baseId dates index batch w
  = (Ok (batch ++ map setOp
           (occurrences rt classData baseId dates index (World.ids w))),
     drawIds (length dates) w).
Proof.
  revert index batch w.
  induction dates as [|date rest IH]; intros index batch w; simpl.
  - rewrite app_nil_r. by destruct w.
  - unfold mbind, M_bind, newDocRef. simpl. rewrite IH. simpl.
    rewrite <- app_assoc. simpl. f_equal.
    unfold drawIds. simpl. f_equal. lia.
Qed.

Lemma occurrences_lookup rt classData baseId dates index n (i : nat) d :
  occurrences rt classData baseId dates index n !! i = Some d ↔
  ∃ date, dates !! i = Some date ∧
          d = occurrence classData (autoId rt (n + i)) (toISOString rt date)
                baseId (index + i).
Proof.
  revert index n i. induction dates as [|date rest IH]; intros index n i; simpl.
  - rewrite lookup_nil. naive_solver.
  - destruct i as [|i]; simpl.
    + rewrite !Nat.add_0_r. naive_solver.
    + rewrite IH. rewrite !Nat.add_succ_r. done.
Qed.

Lemma occurrences_length rt classData baseId dates index n :
  length (occurrences rt classData baseId dates index n) = length dates.
Proof.
  revert index n. induction dates as [|date rest IH]; intros; simpl; [done|].
  by rewrite IH.
Qed.

Lemma occurrences_ids rt classData baseId dates index n :
  Class.id <$> occurrences rt classData baseId dates index n
  = autoId rt <$> seq n (length dates).
Proof.
  revert index n. induction dates as [|date rest IH]; intros; csimpl; [done|].
  by rewrite IH.
Qed.

(** A batch of [set]s always goes through. *)
Lemma applyOps_sets (ds : list Class.t) (m : gmap string Class.t) :
  applyOps (map setOp ds) m = Some (foldl (λ m d, <[Class.id d := d]> m) m ds).
Proof. revert m. induction ds as [|d ds IH]; intros m; simpl; [done|apply IH]. Qed.

Lemma foldl_insert_other (ds : list Class.t) (m : gmap string Class.t) k :
  k ∉ Class.id <$> ds →
  foldl (λ m d, <[Class.id d := d]> m) m ds !! k = m !! k.
Proof.
  revert m. induction ds as [|d ds IH]; intros m Hk; simpl; [done|].
  rewrite fmap_cons, not_elem_of_cons in Hk. destruct Hk as [Hne Hk].
  rewrite IH by done. by rewrite lookup_insert_ne.
Qed.

Lemma foldl_insert_elem (ds : list Class.t) (m : gmap string Class.t) d :
  NoDup (Class.id <$> ds) → d ∈ ds →
  foldl (λ m d, <[Class.id d := d]> m) m ds !! Class.id d = Some d.
Proof.
  revert m. induction ds as [|d0 ds IH]; intros m Hnd Hd; simpl.
  - by apply elem_of_nil in Hd.
  - rewrite fmap_cons in Hnd. apply NoDup_cons in Hnd as [Hd0 Hnd].
    apply elem_of_cons in Hd as [->|Hd].
    + rewrite foldl_insert_other by done. apply lookup_insert_eq.
    + by apply IH.
Qed.

Lemma length_differs (a b : string) :
  String.length a ≠ String.length b → a ≠ b.
Proof. congruence. Qed.

(** C1.  [addClass] on a recurring class issues exactly one write, a batch
    commit of one [set] per generated date, in the order of the dates.  Every
    queued document is the one persisted under its id; the first carries a
    null [baseId] and all the others carry the UUID drawn for this call, which
    is the id of none of the documents.  The platform is taken at its word:
    references get distinct ids, ids are 20 characters long and UUIDs 36. *)
Theorem series_ids rt w (newClass : NewClass.t) :
  let startDate := parseISO rt (NewClass.datetime newClass) in
  let dates := generateRecurringDates startDate (addYears rt startDate 1) in
  let sid := randomUUID rt (World.uuids w) in
  let w' := after (addClass rt newClass) w in
  NewClass.isRecurring newClass = true →
  (∀ n, String.length (autoId rt n) = 20%nat) →
  (∀ n, String.length (randomUUID rt n) = 36%nat) →
  NoDup (autoId rt <$> seq (S (World.ids w)) (length dates)) →
  ∃ docs,
    outcome (addClass rt newClass) w = Ok tt ∧
    writes w' = writes w ++ [CCommit (map setOp docs)] ∧
    length docs = length dates ∧
    ∀ (i : nat) d, docs !! i = Some d →
      World.classes w' !! Class.id d = Some d ∧
      (∃ date, dates !! i = Some date ∧ Class.datetime d = toISOString rt date) ∧
      Class.baseId d = (if i is O then None else Some sid) ∧
      Class.id d ≠ sid.
Proof.
  intros startDate dates sid w' Hrec Hids Huuids Hnd. subst w'.
  set (classData := NewClass.withId newClass (autoId rt (World.ids w))).
  exists (occurrences rt classData sid dates 0 (S (World.ids w))).
  unfold outcome, after, addClass. run. rewrite Hrec. simpl.
  rewrite queueOccurrences_run. simpl. fold startDate dates sid classData.
  rewrite applyOps_sets. simpl.
  match goal with
  | |- context [fetchClasses rt ?w2] =>
      destruct (fetchClasses_refreshed rt w2) as (w' & -> & Hdb & _ & Hwr & _)
  end.
  simpl. split; [done|]. split; [|split].
  - rewrite Hwr. writes_of_log.
  - apply occurrences_length.
  - intros i d Hd. rewrite Hdb. simpl.
    pose proof Hd as Hocc. apply occurrences_lookup in Hocc as (date & Hdate & ->).
    split; [|split; [|split]].
    + apply foldl_insert_elem.
      * by rewrite occurrences_ids.
      * by eapply list_elem_of_lookup_2.
    + by exists date.
    + simpl. by destruct i.
    + simpl. apply length_differs. rewrite Hids. subst sid. rewrite Huuids.
      done.
Qed.

Lemma series_ids_witness :
  outcome (addClass Scenario.rt Scenario.weekly) Scenario.w = Ok tt.
Proof.
  destruct (series_ids Scenario.rt Scenario.w Scenario.weekly)
    as (docs & H & _).
  - reflexivity.
  - intros n. reflexivity.
  - intros n. reflexivity.
  - apply (bool_decide_unpack _). vm_compute. reflexivity.
  - exact H.
Defined.

(* ===================================================================== *)
(** ** Further properties of the store module *)
(* ===================================================================== *)

(** *** The published class list *)

(** A class of school [sid] that is not before [from]. *)
Lemma matches_school sid from c :
  matches (mkQuery FSchoolId sid from) c = true ↔
  Class.schoolId c = sid ∧ String.leb from (Class.datetime c) = true.
Proof.
  unfold matches. simpl. rewrite andb_true_iff.
  destruct (String.eqb_spec (Class.schoolId c) sid); naive_solver.
Qed.

Lemma snapshot_values q (m : gmap string Class.t) c :
  c ∈ (snapshot q m).*2 ↔ ∃ k, m !! k = Some c ∧ matches q c = true.
Proof.
  rewrite list_elem_of_fmap. split.
  - intros [[k c'] [-> H]]. exists k. by apply snapshot_elem.
  - intros [k H]. exists (k, c). split; [done|]. by apply snapshot_elem.
Qed.

(** What [fetchClasses] does for a user with a school. *)
Lemma fetchClasses_run rt w sid :
  truthy (Store.user (World.store w) ≫= User.schoolId) = Some sid →
  fetchClasses rt w
  = (Ok tt,
     World.withStore
       (Store.setClasses
          (snapshot (mkQuery FSchoolId sid (nowISO rt (World.clock w)))
             (World.classes w)).*2)
       (World.logCall
          (CGetDocs (mkQuery FSchoolId sid (nowISO rt (World.clock w))))
          (World.tick w))).
Proof.
  intros H. unfold fetchClasses. run. unfold mbind in H. simpl in H.
  by rewrite H.
Qed.

(** X1.  For a published user with a non-empty [schoolId], [fetchClasses]
    succeeds, reads the clock once, issues one query and no write, leaves the
    collection as it is, and publishes exactly the classes of that school
    whose [datetime] is not before the clock reading, one entry per
    document. *)
Theorem fetchClasses_publishes rt w u sid :
  Store.user (World.store w) = Some u →
  User.schoolId u = Some sid → sid ≠ "" →
  let now := nowISO rt (World.clock w) in
  let w' := after (fetchClasses rt) w in
  outcome (fetchClasses rt) w = Ok tt ∧
  World.classes w' = World.classes w ∧
  World.calls w' = World.calls w ++ [CGetDocs (mkQuery FSchoolId sid now)] ∧
  World.clock w' = S (World.clock w) ∧
  (∀ c, c ∈ Store.classes (World.store w') ↔
        ∃ k, World.classes w !! k = Some c ∧ Class.schoolId c = sid ∧
             String.leb now (Class.datetime c) = true) ∧
  length (Store.classes (World.store w'))
  = size (filter (λ kc, Class.schoolId kc.2 = sid
                        ∧ String.leb now (Class.datetime kc.2) = true)
            (World.classes w)).
Proof.
  intros Hu Hs Hne now w'. subst w'. unfold outcome, after.
  rewrite (fetchClasses_run rt w sid).
  2:{ rewrite Hu. simpl. rewrite Hs. apply truthy_Some. done. }
  simpl. fold now. repeat split; try done.
  - intros Hc. apply snapshot_values in Hc as (k & Hk & Hm).
    exists k. split; [done|]. by apply matches_school.
  - intros (k & Hk & Hsc & Hle). apply snapshot_values. exists k.
    split; [done|]. apply matches_school. done.
  - rewrite length_fmap. unfold snapshot. rewrite length_map_to_list.
    f_equal. apply map_filter_ext. intros k c _. simpl.
    apply matches_school.
Qed.

Lemma fetchClasses_publishes_witness :
  length (Store.classes (World.store (after (fetchClasses Scenario.rt) Scenario.w)))
  = size (filter (λ kc, Class.schoolId kc.2 = "s1"
                        ∧ String.leb "2025-03-05T00:00:00.000Z"
                            (Class.datetime kc.2) = true)
            (World.classes Scenario.w)).
Proof.
  apply (fetchClasses_publishes Scenario.rt Scenario.w Scenario.u1 "s1").
  - reflexivity.
  - reflexivity.
  - discriminate.
Defined.

(** Every lookup after a cascading action: the document is as before, or it
    was there and has been rewritten. *)
Lemma cascade_lookup rt label cu mu classId all w k :
  let m' := World.classes (after (cascade rt label cu mu classId all) w) in
  m' !! k = World.classes w !! k ∨
  ∃ c, World.classes w !! k = Some c ∧ m' !! k = mutate mu c.
Proof.
  simpl. destruct (World.classes w !! k) as [c|] eqn:Hk.
  - destruct (cascade_frame rt label cu mu classId all w k c Hk); eauto.
  - left. destruct (World.classes w !! classId) as [c0|] eqn:Hc0.
    + destruct (if all then truthy (Class.baseId c0) else None) as [sid|] eqn:Hs.
      * destruct all; [|done]. apply truthy_Some in Hs as [Hb Hne].
        destruct (cascade_all rt label cu mu classId w c0 sid Hc0 Hb Hne)
          as (_ & _ & Hap).
        by rewrite (Hap k), Hk.
      * destruct (cascade_one rt label cu mu classId all w c0 Hc0)
          as (_ & _ & Hap).
        { destruct all; [|auto]. apply truthy_None in Hs. naive_solver. }
        rewrite (Hap k). case_decide; [|done]. subst. congruence.
    + destruct (cascade_absent rt label cu mu classId all w Hc0) as (_ & -> & _).
      done.
Qed.

(** On an existing target a cascading action runs up to its final
    [fetchClasses], started from a world with the same published state. *)
Lemma cascade_then_fetch rt label cu mu classId all w c :
  World.classes w !! classId = Some c →
  ∃ w2, cascade rt label cu mu classId all w = fetchClasses rt w2 ∧
        World.store w2 = World.store w.
Proof.
  intros Hc. unfold cascade. run. rewrite Hc. simpl.
  assert (∀ w2, (let (r, w') := fetchClasses rt w2 in
                 match r with
                 | Ok a => (Ok a, w')
                 | Throw e => (Throw e, World.logConsole label w')
                 end) = fetchClasses rt w2) as Hfetch.
  { intros w2. by destruct (fetchClasses_refreshed rt w2) as (w' & -> & _). }
  destruct (if all then truthy (Class.baseId c) else None) as [sid|] eqn:Hs.
  - destruct all; [|done].
    set (from := cutoffAt rt cu c w).
    destruct (applyOps_batch mu
                (snapshot (mkQuery FBaseId sid from) (World.classes w)).*1
                (World.classes w)) as (m' & Hm' & _).
    { apply snapshot_NoDup. }
    { intros k Hk. apply snapshot_key in Hk as (c' & -> & _). by eexists. }
    rewrite <- forEachDoc_keys in Hm'.
    destruct cu; simpl; unfold from in Hm'; simpl in Hm'; run; rewrite Hm';
      eexists; (split; [apply Hfetch | reflexivity]).
  - destruct mu as [u|]; simpl.
    + unfold updateDoc. simpl. rewrite Hc.
      eexists; (split; [apply Hfetch | reflexivity]).
    + unfold deleteDoc. eexists; (split; [apply Hfetch | reflexivity]).
Qed.

(** X2.  After [updateClass], [deleteClass], [enrollInClass] or
    [unenrollFromClass] on an existing class, run by a published user with a
    non-empty [schoolId], the published list is the current one: it holds
    exactly the classes of the collection as the action left it that belong
    to the user's school and are not before the last clock reading.  A
    deleted class is no longer published. *)
Theorem published_after_mutation rt w classId c u sid patch userId all act :
  World.classes w !! classId = Some c →
  Store.user (World.store w) = Some u →
  User.schoolId u = Some sid → sid ≠ "" →
  act ∈ [updateClass rt classId patch all; deleteClass rt classId all;
         enrollInClass rt classId userId all;
         unenrollFromClass rt classId userId all] →
  let w' := after act w in
  outcome act w = Ok tt ∧
  ∀ c', c' ∈ Store.classes (World.store w') ↔
        ∃ k, World.classes w' !! k = Some c' ∧ Class.schoolId c' = sid ∧
             String.leb (nowISO rt (Nat.pred (World.clock w')))
               (Class.datetime c') = true.
Proof.
  intros Hc Hu Hs Hne Hact w'. subst w'.
  assert (∃ label cu mu, act = cascade rt label cu mu classId all)
    as (label & cu & mu & ->).
  { rewrite !elem_of_cons, elem_of_nil in Hact.
    destruct Hact as [->|[->|[->|[->|[]]]]]; do 3 eexists;
      [apply updateClass_cascade | apply deleteClass_cascade
      | apply enrollInClass_cascade | apply unenrollFromClass_cascade]. }
  destruct (cascade_then_fetch rt label cu mu classId all w c Hc)
    as (w2 & Heq & Hst).
  unfold outcome, after. rewrite Heq.
  rewrite (fetchClasses_run rt w2 sid).
  2:{ rewrite Hst, Hu. simpl. rewrite Hs. apply truthy_Some. done. }
  simpl. split; [done|].
  intros c'. rewrite snapshot_values. by setoid_rewrite matches_school.
Qed.

Lemma published_after_mutation_witness :
  Scenario.a1 ∉ Store.classes (World.store
                  (after (deleteClass Scenario.rt "a1" true) Scenario.w)).
Proof.
  destruct (published_after_mutation Scenario.rt Scenario.w "a1" Scenario.a1
              Scenario.u1 "s1" Scenario.retitle "u1" true
              (deleteClass Scenario.rt "a1" true)) as [_ H].
  - reflexivity.
  - reflexivity.
  - reflexivity.
  - discriminate.
  - apply elem_of_cons. right. apply elem_of_cons. left. reflexivity.
  - intros Hin. apply H in Hin as (k & Hk & _).
    assert (map_Forall (λ _ c, Class.id c ≠ "a1")
              (World.classes
                 (after (deleteClass Scenario.rt "a1" true) Scenario.w)))
      as Hall by (apply (bool_decide_unpack _); vm_compute; reflexivity).
    by apply (Hall k Scenario.a1 Hk).
Defined.

(** *** [addClass] *)

(** [fetchClasses] draws no id and no UUID and touches no collection. *)
Lemma fetchClasses_draws_nothing rt w :
  let w' := (fetchClasses rt w).2 in
  (fetchClasses rt w).1 = Ok tt ∧
  World.classes w' = World.classes w ∧
  World.ids w' = World.ids w ∧
  World.uuids w' = World.uuids w ∧
  writes w' = writes w.
Proof.
  unfold fetchClasses. run. destruct (truthy _); simpl; repeat split.
  writes_of_log.
Qed.

(** X3.  [addClass] on a class that is not recurring issues exactly one
    write, a [setDoc] under the newly drawn id, of the draft completed with
    that id: every field of the draft is stored as given, its [baseId]
    included.  One id and no UUID is drawn, and the collection is the old one
    with that document inserted. *)
Theorem addClass_single rt w (newClass : NewClass.t) :
  NewClass.isRecurring newClass = false →
  let ref := autoId rt (World.ids w) in
  let w' := after (addClass rt newClass) w in
  outcome (addClass rt newClass) w = Ok tt ∧
  writes w' = writes w ++ [CSetDoc ref (NewClass.withId newClass ref)] ∧
  World.classes w' = <[ref := NewClass.withId newClass ref]> (World.classes w) ∧
  World.ids w' = S (World.ids w) ∧
  World.uuids w' = World.uuids w.
Proof.
  intros Hrec ref w'. subst ref w'.
  unfold outcome, after, addClass. run. rewrite Hrec. unfold setDoc. simpl.
  match goal with
  | |- context [fetchClasses rt ?w2] =>
      destruct (fetchClasses_draws_nothing rt w2) as (Hr & Hdb & Hids & Huu & Hwr);
      destruct (fetchClasses rt w2) as [r w'] eqn:Hf
  end.
  simpl in *. subst r. simpl. rewrite Hdb, Hids, Huu, Hwr.
  repeat split. writes_of_log.
Qed.

Lemma addClass_single_witness :
  World.classes (after (addClass Scenario.rt Scenario2.single) Scenario.w)
  = <["AAAAAAAAAAAAAAAAAAAA" :=
        NewClass.withId Scenario2.single "AAAAAAAAAAAAAAAAAAAA"]>
      (World.classes Scenario.w).
Proof.
  apply (addClass_single Scenario.rt Scenario.w Scenario2.single).
  reflexivity.
Defined.

(** X4.  [addClass] on a recurring class draws one id more than it writes
    documents (the first reference is never written) and one UUID, and
    changes no document stored under another key than the ids drawn for the
    occurrences. *)
Theorem addClass_series_frame rt w (newClass : NewClass.t) :
  NewClass.isRecurring newClass = true →
  let startDate := parseISO rt (NewClass.datetime newClass) in
  let dates := generateRecurringDates startDate (addYears rt startDate 1) in
  let w' := after (addClass rt newClass) w in
  World.ids w' = (World.ids w + 1 + length dates)%nat ∧
  World.uuids w' = S (World.uuids w) ∧
  ∀ k, k ∉ autoId rt <$> seq (S (World.ids w)) (length dates) →
       World.classes w' !! k = World.classes w !! k.
Proof.
  intros Hrec startDate dates w'. subst w'.
  unfold after, addClass. run. rewrite Hrec. simpl.
  rewrite queueOccurrences_run. simpl. fold startDate dates.
  rewrite applyOps_sets. simpl.
  match goal with
  | |- context [fetchClasses rt ?w2] =>
      destruct (fetchClasses_draws_nothing rt w2) as (Hr & Hdb & Hids & Huu & _);
      destruct (fetchClasses rt w2) as [r w'] eqn:Hf
  end.
  simpl in *. subst r. simpl. rewrite Hdb, Hids, Huu.
  split; [lia|]. split; [done|].
  intros k Hk. apply foldl_insert_other. by rewrite occurrences_ids.
Qed.

Lemma addClass_series_frame_witness :
  World.classes (after (addClass Scenario.rt Scenario.weekly) Scenario.w)
    !! "AAAAAAAAAAAAAAAAAAAA" = None.
Proof.
  destruct (addClass_series_frame Scenario.rt Scenario.w Scenario.weekly)
    as (_ & _ & H).
  - reflexivity.
  - rewrite H; [reflexivity|].
    apply (bool_decide_unpack _). vm_compute. reflexivity.
Defined.

(** *** Enrollment *)

Lemma elem_of_arrayUnion x l v : v ∈ arrayUnion x l ↔ v = x ∨ v ∈ l.
Proof.
  unfold arrayUnion. case_decide.
  - naive_solver.
  - rewrite elem_of_app, list_elem_of_singleton. naive_solver.
Qed.

Lemma elem_of_arrayRemove x l v : v ∈ arrayRemove x l ↔ v ≠ x ∧ v ∈ l.
Proof. unfold arrayRemove. rewrite list_elem_of_filter. done. Qed.

Lemma NoDup_arrayUnion x l : NoDup l → NoDup (arrayUnion x l).
Proof.
  intros H. unfold arrayUnion. case_decide; [done|].
  apply NoDup_app. split; [done|]. split; [|apply NoDup_singleton].
  intros y Hy ->%list_elem_of_singleton. done.
Qed.

Lemma NoDup_arrayRemove x l : NoDup l → NoDup (arrayRemove x l).
Proof. apply NoDup_filter. Qed.

Lemma length_arrayUnion x l :
  (length l ≤ length (arrayUnion x l) ≤ S (length l))%nat.
Proof.
  unfold arrayUnion. case_decide; [lia|]. rewrite length_app. simpl. lia.
Qed.

Lemma length_arrayRemove x l : (length (arrayRemove x l) ≤ length l)%nat.
Proof. apply length_filter. Qed.

Lemma arrayRemove_arrayUnion x l :
  arrayRemove x (arrayUnion x l) = arrayRemove x l.
Proof.
  unfold arrayUnion. case_decide; [done|]. unfold arrayRemove.
  rewrite filter_app, filter_cons, decide_False by (intros H'; by apply H').
  rewrite filter_nil. apply app_nil_r.
Qed.

Lemma withEnrolled_compose g f c :
  Class.withEnrolled g (Class.withEnrolled f c) = Class.withEnrolled (g ∘ f) c.
Proof. reflexivity. Qed.

(** X5.  On an existing class [enrollInClass] always leaves the user
    enrolled in the targeted class and [unenrollFromClass] always leaves the
    user out of it, with or without the series flag: the series cut-off being
    the target's own [datetime], the target is never excluded from its own
    cascade. *)
Theorem enrollment_reaches_target rt w classId userId all c :
  World.classes w !! classId = Some c →
  (∃ c', World.classes (after (enrollInClass rt classId userId all) w)
           !! classId = Some c' ∧
         userId ∈ Class.enrolledStudents c') ∧
  (∃ c', World.classes (after (unenrollFromClass rt classId userId all) w)
           !! classId = Some c' ∧
         userId ∉ Class.enrolledStudents c').
Proof.
  intros Hc. rewrite enrollInClass_cascade, unenrollFromClass_cascade.
  rewrite !(cascade_target rt _ _ classId all w c Hc). simpl. split.
  - eexists; split; [done|]. simpl. apply elem_of_arrayUnion. by left.
  - eexists; split; [done|]. simpl. rewrite elem_of_arrayRemove. naive_solver.
Qed.

Lemma enrollment_reaches_target_witness :
  ∃ c', World.classes (after (enrollInClass Scenario.rt "a3" "u1" true)
                         Scenario.w) !! "a3" = Some c' ∧
        "u1" ∈ Class.enrolledStudents c'.
Proof.
  apply (enrollment_reaches_target Scenario.rt Scenario.w "a3" "u1" true
           Scenario.a3).
  reflexivity.
Defined.

(** X6.  Enrolling a user who is not in a class and then unenrolling that
    user, both on the single occurrence, restores the whole collection. *)
Theorem enroll_unenroll_round_trip rt w classId userId c :
  World.classes w !! classId = Some c →
  userId ∉ Class.enrolledStudents c →
  let w1 := after (enrollInClass rt classId userId false) w in
  let w2 := after (unenrollFromClass rt classId userId false) w1 in
  outcome (enrollInClass rt classId userId false) w = Ok tt ∧
  outcome (unenrollFromClass rt classId userId false) w1 = Ok tt ∧
  World.classes w2 = World.classes w.
Proof.
  intros Hc Hout w1 w2. subst w1 w2.
  rewrite enrollInClass_cascade, unenrollFromClass_cascade.
  destruct (cascade_one rt "Error enrolling in class:" TargetDatetime
              (MUpdate (ArrayUnion userId)) classId false w c Hc)
    as (Hr1 & _ & Hap1); [auto|].
  set (w1 := after (cascade rt "Error enrolling in class:" TargetDatetime
                      (MUpdate (ArrayUnion userId)) classId false) w) in *.
  assert (World.classes w1 !! classId
          = Some (Class.withEnrolled (arrayUnion userId) c)) as Hc1.
  { rewrite (Hap1 classId), decide_True by done. by rewrite Hc. }
  destruct (cascade_one rt "Error unenrolling from class:" TargetDatetime
              (MUpdate (ArrayRemove userId)) classId false w1 _ Hc1)
    as (Hr2 & _ & Hap2); [auto|].
  split; [done|]. split; [done|].
  apply map_eq. intros k. rewrite (Hap2 k).
  destruct (decide (k = classId)) as [->|Hne].
  - rewrite Hc1, Hc. simpl. f_equal. rewrite withEnrolled_compose.
    apply withEnrolled_same. simpl. rewrite arrayRemove_arrayUnion.
    by apply arrayRemove_absent.
  - by rewrite (Hap1 k), decide_False.
Qed.

Lemma enroll_unenroll_round_trip_witness :
  World.classes
    (after (unenrollFromClass Scenario.rt "a1" "u1" false)
       (after (enrollInClass Scenario.rt "a1" "u1" false) Scenario.w))
  = World.classes Scenario.w.
Proof.
  apply (enroll_unenroll_round_trip Scenario.rt Scenario.w "a1" "u1" Scenario.a1).
  - reflexivity.
  - apply (bool_decide_unpack _). reflexivity.
Defined.

Lemma inSeriesFrom_withEnrolled sid from f c :
  inSeriesFrom sid from (Class.withEnrolled f c) ↔ inSeriesFrom sid from c.
Proof. reflexivity. Qed.

(** X7.  Series enrollment is not undone by series unenrollment: enrolling
    a user from a class on and then unenrolling the user from that class on
    gives the collection that the unenrollment alone gives, so an enrollment
    the user already had in a later class of the series is lost. *)
Theorem series_enroll_then_unenroll rt w classId userId c sid :
  World.classes w !! classId = Some c →
  Class.baseId c = Some sid → sid ≠ "" →
  let w1 := after (enrollInClass rt classId userId true) w in
  World.classes (after (unenrollFromClass rt classId userId true) w1)
  = World.classes (after (unenrollFromClass rt classId userId true) w).
Proof.
  intros Hc Hb Hne w1. subst w1.
  rewrite enrollInClass_cascade, unenrollFromClass_cascade.
  destruct (cascade_all rt "Error enrolling in class:" TargetDatetime
              (MUpdate (ArrayUnion userId)) classId w c sid Hc Hb Hne)
    as (_ & _ & Hap1).
  pose proof (cascade_target rt "Error enrolling in class:"
                (MUpdate (ArrayUnion userId)) classId true w c Hc) as Hc1.
  set (w1 := after (cascade rt "Error enrolling in class:" TargetDatetime
                      (MUpdate (ArrayUnion userId)) classId true) w) in *.
  simpl in Hc1, Hap1.
  destruct (cascade_all rt "Error unenrolling from class:" TargetDatetime
              (MUpdate (ArrayRemove userId)) classId w1 _ sid Hc1 Hb Hne)
    as (_ & _ & Hap2).
  destruct (cascade_all rt "Error unenrolling from class:" TargetDatetime
              (MUpdate (ArrayRemove userId)) classId w c sid Hc Hb Hne)
    as (_ & _ & Hap).
  simpl in Hap2, Hap.
  apply map_eq. intros k. rewrite (Hap2 k), (Hap k), (Hap1 k).
  destruct (World.classes w !! k) as [c'|]; [|done].
  destruct (decide (inSeriesFrom sid (Class.datetime c) c')) as [Hin|Hnin].
  - simpl. rewrite decide_True by done. simpl. f_equal.
    rewrite withEnrolled_compose. unfold Class.withEnrolled. simpl.
    by rewrite arrayRemove_arrayUnion.
  - simpl. by rewrite decide_False.
Qed.

Lemma series_enroll_then_unenroll_witness :
  World.classes
    (after (unenrollFromClass Scenario.rt "a1" "u2" true)
       (after (enrollInClass Scenario.rt "a1" "u2" true) Scenario.w)) !! "a2"
  = Some (Class.withEnrolled (λ _, []) Scenario.a2).
Proof.
  rewrite (series_enroll_then_unenroll Scenario.rt Scenario.w "a1" "u2"
             Scenario.a1 "series-1").
  - vm_compute. reflexivity.
  - reflexivity.
  - reflexivity.
  - discriminate.
Defined.

(** X8.  [enrollInClass] and [unenrollFromClass] never create or remove a
    document and change nothing but membership lists: every class keeps all
    its other fields, and every other user is a member of a class afterwards
    exactly when that user was before. *)
Theorem enrollment_changes_one_membership rt w classId userId all act k :
  act ∈ [enrollInClass rt classId userId all;
         unenrollFromClass rt classId userId all] →
  match World.classes w !! k with
  | Some c =>
      ∃ l, World.classes (after act w) !! k
           = Some (Class.withEnrolled (λ _, l) c) ∧
           ∀ v, v ≠ userId → v ∈ l ↔ v ∈ Class.enrolledStudents c
  | None => World.classes (after act w) !! k = None
  end.
Proof.
  intros Hact.
  assert (∃ label u, (u = ArrayUnion userId ∨ u = ArrayRemove userId) ∧
            act = cascade rt label TargetDatetime (MUpdate u) classId all)
    as (label & u & Hu & ->).
  { rewrite !elem_of_cons, elem_of_nil in Hact.
    destruct Hact as [->|[->|[]]]; do 2 eexists;
      (split; [|first [apply enrollInClass_cascade
                      | apply unenrollFromClass_cascade]]); auto. }
  destruct (cascade_lookup rt label TargetDatetime (MUpdate u) classId all w k)
    as [Heq|(c & Hk & Hmu)].
  - rewrite Heq. destruct (World.classes w !! k) as [c|]; [|done].
    exists (Class.enrolledStudents c). split; [by destruct c|done].
  - rewrite Hk, Hmu. simpl. destruct Hu as [-> | ->]; simpl.
    + exists (arrayUnion userId (Class.enrolledStudents c)). split; [done|].
      intros v Hv. rewrite elem_of_arrayUnion. naive_solver.
    + exists (arrayRemove userId (Class.enrolledStudents c)). split; [done|].
      intros v Hv. rewrite elem_of_arrayRemove. naive_solver.
Qed.

Lemma enrollment_changes_one_membership_witness :
  ∃ l, World.classes (after (enrollInClass Scenario.rt "a1" "u1" true)
                        Scenario.w) !! "a2"
       = Some (Class.withEnrolled (λ _, l) Scenario.a2) ∧
       ∀ v, v ≠ "u1" → v ∈ l ↔ v ∈ Class.enrolledStudents Scenario.a2.
Proof.
  apply (enrollment_changes_one_membership Scenario.rt Scenario.w "a1" "u1"
           true (enrollInClass Scenario.rt "a1" "u1" true) "a2").
  apply elem_of_cons. left. reflexivity.
Defined.

(** X9.  Duplicate-freeness of membership lists is kept: if no class of the
    collection lists a student twice, none does after [enrollInClass] or
    [unenrollFromClass]; an enrollment lengthens a list by at most one and an
    unenrollment lengthens none. *)
Theorem enrollment_keeps_lists_duplicate_free rt w classId userId all :
  map_Forall (λ _ c, NoDup (Class.enrolledStudents c)) (World.classes w) →
  let en := World.classes (after (enrollInClass rt classId userId all) w) in
  let un := World.classes (after (unenrollFromClass rt classId userId all) w) in
  map_Forall (λ _ c, NoDup (Class.enrolledStudents c)) en ∧
  map_Forall (λ _ c, NoDup (Class.enrolledStudents c)) un ∧
  ∀ k c, World.classes w !! k = Some c →
    (∃ c', en !! k = Some c' ∧
           (length (Class.enrolledStudents c')
            ≤ S (length (Class.enrolledStudents c)))%nat) ∧
    (∃ c', un !! k = Some c' ∧
           (length (Class.enrolledStudents c')
            ≤ length (Class.enrolledStudents c))%nat).
Proof.
  intros Hnd en un. subst en un.
  rewrite enrollInClass_cascade, unenrollFromClass_cascade.
  split; [|split].
  - intros k c' Hk.
    destruct (cascade_lookup rt "Error enrolling in class:" TargetDatetime
                (MUpdate (ArrayUnion userId)) classId all w k)
      as [Heq|(c & Hc & Hmu)].
    + rewrite Heq in Hk. by apply (Hnd k).
    + rewrite Hmu in Hk. injection Hk as <-. simpl.
      apply NoDup_arrayUnion. by apply (Hnd k).
  - intros k c' Hk.
    destruct (cascade_lookup rt "Error unenrolling from class:" TargetDatetime
                (MUpdate (ArrayRemove userId)) classId all w k)
      as [Heq|(c & Hc & Hmu)].
    + rewrite Heq in Hk. by apply (Hnd k).
    + rewrite Hmu in Hk. injection Hk as <-. simpl.
      apply NoDup_arrayRemove. by apply (Hnd k).
  - intros k c Hk. split.
    + destruct (cascade_frame rt "Error enrolling in class:" TargetDatetime
                  (MUpdate (ArrayUnion userId)) classId all w k c Hk)
        as [H|H]; rewrite H; eexists; (split; [done|]); simpl; [lia|].
      apply length_arrayUnion.
    + destruct (cascade_frame rt "Error unenrolling from class:" TargetDatetime
                  (MUpdate (ArrayRemove userId)) classId all w k c Hk)
        as [H|H]; rewrite H; eexists; (split; [done|]); simpl; [lia|].
      apply length_arrayRemove.
Qed.

Lemma enrollment_keeps_lists_duplicate_free_witness :
  map_Forall (λ _ c, NoDup (Class.enrolledStudents c))
    (World.classes (after (enrollInClass Scenario.rt "a1" "u2" true) Scenario.w)).
Proof.
  apply (enrollment_keeps_lists_duplicate_free Scenario.rt Scenario.w "a1" "u2"
           true).
  apply (bool_decide_unpack _). vm_compute. reflexivity.
Defined.

(** *** Update and delete *)

(** X10.  [deleteClass] only removes: whatever the path, every document of
    the collection afterwards was in the collection before, under the same
    key and with the same content. *)
Theorem deleteClass_only_removes rt w classId all :
  World.classes (after (deleteClass rt classId all) w) ⊆ World.classes w.
Proof.
  rewrite deleteClass_cascade. apply map_subseteq_spec. intros k c' Hk.
  destruct (cascade_lookup rt "Error deleting class:" Now MDelete classId all w k)
    as [Heq|(c & Hc & Hmu)].
  - by rewrite <- Heq.
  - rewrite Hmu in Hk. done.
Qed.

(** X11.  [updateClass] never creates or removes a document: each document
    is left as it was or replaced by itself with the patch applied.  When the
    patch names no [enrolledStudents], every membership list is kept. *)
Theorem updateClass_patches_in_place rt w classId patch all k :
  let m' := World.classes (after (updateClass rt classId patch all) w) in
  match World.classes w !! k with
  | Some c =>
      (m' !! k = Some c ∨ m' !! k = Some (Patch.apply patch c)) ∧
      (Patch.enrolledStudents patch = None →
       ∃ c', m' !! k = Some c' ∧
             Class.enrolledStudents c' = Class.enrolledStudents c)
  | None => m' !! k = None
  end.
Proof.
  simpl. rewrite updateClass_cascade.
  destruct (cascade_lookup rt "Error updating class:" Now
              (MUpdate (SetFields patch)) classId all w k)
    as [Heq|(c & Hc & Hmu)].
  - rewrite Heq. destruct (World.classes w !! k) as [c|]; [|done].
    split; [by left|]. intros _. by exists c.
  - rewrite Hc, Hmu. simpl. split; [by right|].
    intros Hp. eexists; split; [done|]. simpl. by rewrite Hp.
Qed.

(** *** [updateProfile] *)

(** X12.  Without a published user, or without a signed-in account,
    [updateProfile] throws "Utilisateur non connecté" before its [try]: the
    world is exactly as it was, the console included. *)
Theorem updateProfile_not_connected w data :
  Store.user (World.store w) = None ∨ World.currentUser w = None →
  updateProfile data w = (Throw notConnected, w).
Proof.
  intros H. unfold updateProfile. run.
  destruct H as [-> | ->]; [done|]. by destruct (Store.user _).
Qed.

Lemma updateProfile_not_connected_witness :
  updateProfile Scenario.emailChange Scenario.signedOut
  = (Throw notConnected, Scenario.signedOut).
Proof. apply updateProfile_not_connected. left. reflexivity. Defined.

(** X13.  A change of name alone (same email, no new password) needs no
    current password and never reaches the identity provider: whatever the
    current-password field holds, the account is untouched, the user document
    and the published user get the new name and keep their email. *)
Theorem updateProfile_name_only w data user account doc :
  Store.user (World.store w) = Some user →
  World.currentUser w = Some account →
  World.users w !! User.id user = Some doc →
  ProfileData.email data = User.email user →
  truthy (ProfileData.newPassword data) = None →
  let w' := after (updateProfile data) w in
  outcome (updateProfile data) w = Ok tt ∧
  World.currentUser w' = Some account ∧
  World.users w' !! User.id user
    = Some (mergeUpdates doc (ProfileData.name data) None) ∧
  Store.user (World.store w')
    = Some (mergeUpdates user (ProfileData.name data) None) ∧
  World.calls w'
    = World.calls w ++ [CUpdateUser (User.id user) (ProfileData.name data) None].
Proof.
  intros Hu Ha Hd He Hn w'. subst w'.
  unfold outcome, after, updateProfile. run. rewrite Hu, Ha. simpl.
  rewrite He, String.eqb_refl, Hn. simpl.
  unfold updateUserDoc. simpl. rewrite Hd. simpl.
  repeat split; try done.
  rewrite lookup_alter, decide_True by done. by rewrite Hd.
Qed.

Lemma updateProfile_name_only_witness :
  Store.user (World.store (after (updateProfile Scenario2.rename) Scenario.w))
  = Some (mergeUpdates Scenario.u1 "Ann B." None).
Proof.
  apply (updateProfile_name_only Scenario.w Scenario2.rename Scenario.u1
           (Account.mk "u1" "ann@example.org" "secret1") Scenario.u1);
    reflexivity.
Defined.

Lemma credentialChange_guard data user :
  credentialChange data user →
  negb (String.eqb (ProfileData.email data) (User.email user))
  || bool_decide (is_Some (truthy (ProfileData.newPassword data))) = true.
Proof.
  intros [Hne|Hnew]; rewrite orb_true_iff.
  - left. destruct (String.eqb_spec (ProfileData.email data) (User.email user));
      [congruence|done].
  - right. by apply bool_decide_eq_true_2.
Qed.

(** X14.  A credential change whose current password is not the account's
    is refused at re-authentication, before anything is changed: the account,
    the user documents and the published state are as before, no repository
    call is made, and the error is logged once. *)
Theorem updateProfile_wrong_password w data user account p :
  Store.user (World.store w) = Some user →
  World.currentUser w = Some account →
  credentialChange data user →
  ProfileData.currentPassword data = Some p → p ≠ "" →
  p ≠ Account.password account →
  updateProfile data w
  = (Throw (AuthError "auth/wrong-password"),
     World.logConsole "Error updating profile:" w).
Proof.
  intros Hu Ha Hcc Hp Hne Hwrong.
  unfold updateProfile. run. rewrite Hu, Ha. simpl.
  rewrite (credentialChange_guard data user Hcc), Hp. simpl.
  destruct (String.eqb_spec p "") as [->|_]; [done|]. simpl.
  unfold reauthenticate. rewrite Ha.
  destruct (String.eqb_spec p (Account.password account)); [done|]. done.
Qed.

Lemma updateProfile_wrong_password_witness :
  updateProfile Scenario2.wrongPassword Scenario.w
  = (Throw (AuthError "auth/wrong-password"),
     World.logConsole "Error updating profile:" Scenario.w).
Proof.
  apply (updateProfile_wrong_password Scenario.w Scenario2.wrongPassword
           Scenario.u1 (Account.mk "u1" "ann@example.org" "secret1") "guess").
  - reflexivity.
  - reflexivity.
  - left. discriminate.
  - reflexivity.
  - discriminate.
  - discriminate.
Defined.

(** X15.  A credential change with the right current password sets the
    account's email and password first and writes the user document
    afterwards.  With the document in place, the account, the document and
    the published user all carry the new email; with no document the write
    is refused and [updateProfile] throws after the account has been
    changed: the account then carries the new email and password while the
    published user still carries the old email. *)
Theorem updateProfile_changes_account_first w data user account p newEmail np :
  Store.user (World.store w) = Some user →
  World.currentUser w = Some account →
  ProfileData.email data = newEmail → newEmail ≠ User.email user →
  ProfileData.newPassword data = Some np → np ≠ "" →
  ProfileData.currentPassword data = Some p → p ≠ "" →
  p = Account.password account →
  let w' := after (updateProfile data) w in
  World.currentUser w' = Some (Account.mk (Account.uid account) newEmail np) ∧
  match World.users w !! User.id user with
  | Some doc =>
      outcome (updateProfile data) w = Ok tt ∧
      World.users w' !! User.id user
        = Some (mergeUpdates doc (ProfileData.name data) (Some newEmail)) ∧
      Store.user (World.store w')
        = Some (mergeUpdates user (ProfileData.name data) (Some newEmail))
  | None =>
      outcome (updateProfile data) w = Throw (FirestoreError "not-found") ∧
      World.users w' = World.users w ∧
      Store.user (World.store w') = Some user
  end.
Proof.
  intros Hu Ha He Hne Hnp Hnpne Hp Hpne Hright w'. subst w'.
  unfold outcome, after, updateProfile. run. rewrite Hu, Ha. simpl.
  rewrite He, Hnp, Hp. simpl.
  destruct (String.eqb_spec newEmail (User.email user)) as [|_]; [done|].
  destruct (String.eqb_spec np "") as [|_]; [done|].
  destruct (String.eqb_spec p "") as [|_]; [done|]. simpl.
  unfold reauthenticate. rewrite Ha.
  destruct (String.eqb_spec p (Account.password account)) as [_|]; [|done].
  simpl. unfold updateEmail, updatePassword. simpl. rewrite Ha. simpl.
  unfold updateUserDoc. simpl.
  destruct (World.users w !! User.id user) as [doc|] eqn:Hd; simpl.
  - repeat split; try done.
    rewrite lookup_alter, decide_True by done. by rewrite Hd.
  - repeat split; done.
Qed.

Lemma updateProfile_changes_account_first_witness :
  World.currentUser (after (updateProfile Scenario2.changeBoth) Scenario2.noUserDoc)
  = Some (Account.mk "u1" "ann@example.com" "hunter22") ∧
  Store.user (World.store
                (after (updateProfile Scenario2.changeBoth) Scenario2.noUserDoc))
  = Some Scenario.u1.
Proof.
  destruct (updateProfile_changes_account_first Scenario2.noUserDoc
              Scenario2.changeBoth Scenario.u1
              (Account.mk "u1" "ann@example.org" "secret1") "secret1"
              "ann@example.com" "hunter22") as [Hacc Hrest];
    try reflexivity; try discriminate.
  split; [exact Hacc|]. apply Hrest.
Defined.

(** *** The profile forms *)

Lemma app_nil_iff {A} (l1 l2 : list A) : l1 ++ l2 = [] ↔ l1 = [] ∧ l2 = [].
Proof. split; [apply app_eq_nil | intros [-> ->]; done]. Qed.

Lemma issueIf_nil b p m : issueIf b p m = [] ↔ b = false.
Proof. unfold issueIf. destruct b; naive_solver. Qed.

(** An accepted form holds a current password whenever a credential change
    is asked for. *)
Lemma accepted_has_current_password isEmail initialEmail
    (data : ProfileInputs.t) :
  createProfileSchema isEmail initialEmail data = [] →
  ProfileInputs.email data ≠ initialEmail
  ∨ is_Some (truthy (ProfileInputs.newPassword data)) →
  is_Some (truthy (ProfileInputs.currentPassword data)).
Proof.
  unfold createProfileSchema. rewrite !app_nil_iff, !issueIf_nil.
  intros (_ & _ & Hcur & _) Hneeds.
  apply andb_false_iff in Hcur as [Hcur|Hcur].
  - apply orb_false_iff in Hcur as [He Hn].
    apply negb_false_iff, String.eqb_eq in He.
    apply bool_decide_eq_false in Hn. by destruct Hneeds.
  - apply bool_decide_eq_false in Hcur. by apply not_eq_None_Some.
Qed.

(** X17.  The form's check makes the core's current-password guard
    unreachable: however the form is filled in and whatever the state, a
    submission never ends in the core's "current password required"
    error. *)
Theorem form_never_hits_password_guard isEmail (data : ProfileInputs.t) w :
  outcome (handleSubmit isEmail data) w ≠ Ok (Failed currentPasswordRequired).
Proof.
  unfold outcome, handleSubmit. run.
  set (ie := default "" _).
  destruct (createProfileSchema isEmail ie data) as [|i issues] eqn:Hs;
    [|done].
  pose proof (accepted_has_current_password isEmail ie data Hs) as Hcur.
  unfold onSubmit, updateProfile. run.
  destruct (Store.user (World.store w)) as [user|] eqn:Hu; [|done].
  destruct (World.currentUser w) as [account|] eqn:Ha; [|done].
  simpl.
  assert (ie = User.email user) as Hie.
  { unfold ie. simpl. destruct (String.eqb_spec (User.email user) ""); done. }
  destruct (negb (String.eqb (ProfileInputs.email data) (User.email user))
            || bool_decide (is_Some (truthy (ProfileInputs.newPassword data))))
    eqn:Hneeds.
  - destruct Hcur as [cp Hcp].
    { apply orb_true_iff in Hneeds as [Hne|Hnew].
      - left. rewrite Hie. intros Heq. rewrite Heq, String.eqb_refl in Hne. done.
      - right. by apply bool_decide_eq_true_1 in Hnew. }
    rewrite Hcp. simpl.
    destruct (reauthenticate cp w) as [[[]|e] w1] eqn:Hre; simpl.
    + repeat match goal with
             | |- context [match ?x with _ => _ end] => destruct x eqn:?; simpl
             end; try done;
        repeat match goal with
               | H : (_, _) = (_, _) |- _ => injection H as <- <-
               | H : updateUserDoc _ _ _ _ = _ |- _ =>
                   unfold updateUserDoc in H; simpl in H
               | H : updateEmail _ _ = _ |- _ =>
                   unfold updateEmail in H; simpl in H
               | H : updatePassword _ _ = _ |- _ =>
                   unfold updatePassword in H; simpl in H
               | H : context [match ?x with _ => _ end] |- _ =>
                   destruct x eqn:?; simpl in H
               end; try done; try congruence.
    + unfold reauthenticate in Hre. rewrite Ha in Hre.
      destruct (String.eqb cp (Account.password account)); [done|].
      injection Hre as <- <-. done.
  - simpl. unfold updateUserDoc. simpl.
    destruct (World.users w !! User.id user); simpl; done.
Qed.

(** A string has no more UTF-16 units than bytes. *)
Lemma jsLength_le_length (s : string) : (jsLength s ≤ String.length s)%nat.
Proof.
  assert (jsLength s ≤ String.length s
          ∧ ∀ a, jsLength (String a s) ≤ S (String.length s))%nat as [H _];
    [|done].
  induction s as [|b s [IH IHa]].
  - split; [done|]. intros a. simpl.
    destruct (isContinuation a), (startsFour a); lia.
  - split; [apply IHa|]. intros a. simpl.
    destruct (isContinuation a); [specialize (IHa b); simpl in *; lia|].
    destruct (startsFour a); [|specialize (IHa b); simpl in *; lia].
    destruct (isContinuation b) eqn:Hb; [lia|].
    specialize (IHa b). simpl in IHa. rewrite Hb in IHa. lia.
Qed.

(** X18.  The earlier profile form accepts a submission only with a
    non-empty current password and with a new password that is absent or at
    least 6 characters long and confirmed.  A new-password field left empty
    (the form's default value) or a missing current password makes the
    submission invalid: no call reaches the core, so that form cannot change
    a name or an email alone. *)
Theorem earlier_form_needs_passwords isEmail (data : ProfileInputs.t) w :
  (profileSchema isEmail data = [] →
   (∃ p, ProfileInputs.currentPassword data = Some p ∧ p ≠ "") ∧
   (ProfileInputs.newPassword data = None
    ∨ ∃ p, ProfileInputs.newPassword data = Some p ∧
           (6 ≤ jsLength p ≤ String.length p)%nat ∧
           ProfileInputs.confirmPassword data = Some p)) ∧
  (ProfileInputs.newPassword data = Some ""
   ∨ truthy (ProfileInputs.currentPassword data) = None →
   ∃ issues, earlierHandleSubmit isEmail data w = (Ok (Invalid issues), w)).
Proof.
  assert (profileSchema isEmail data = [] →
          (∃ p, ProfileInputs.currentPassword data = Some p ∧ p ≠ "") ∧
          (ProfileInputs.newPassword data = None
           ∨ ∃ p, ProfileInputs.newPassword data = Some p ∧
                  (6 ≤ jsLength p ≤ String.length p)%nat ∧
                  ProfileInputs.confirmPassword data = Some p)) as Hacc.
  { unfold profileSchema. rewrite !app_nil_iff, !issueIf_nil.
    intros (_ & _ & Hcur & Hnew & Hconf).
    destruct (ProfileInputs.currentPassword data) as [cp|]; [|done].
    apply issueIf_nil, Nat.ltb_ge in Hcur. split.
    { exists cp. split; [done|]. intros ->. simpl in Hcur. lia. }
    destruct (ProfileInputs.newPassword data) as [np|]; [|by left].
    apply issueIf_nil, Nat.ltb_ge in Hnew. right. exists np.
    split; [done|]. split; [split; [done|apply jsLength_le_length]|].
    apply issueIf_nil, andb_false_iff in Hconf as [Hc|Hc].
    - apply bool_decide_eq_false in Hc. destruct Hc. simpl.
      destruct (String.eqb_spec np "") as [->|]; [simpl in Hnew; lia|].
      by eexists.
    - apply bool_decide_eq_false in Hc.
      destruct (decide (Some np = ProfileInputs.confirmPassword data));
        [done|by destruct Hc]. }
  split; [done|].
  intros Hbad. unfold earlierHandleSubmit.
  destruct (profileSchema isEmail data) as [|i issues] eqn:Hs; [|by eexists].
  exfalso. destruct (Hacc eq_refl) as [(cp & Hcp & Hne) Hnew].
  destruct Hbad as [Hempty|Hnone].
  - destruct Hnew as [Hn|(p & Hp & Hlen & _)]; [congruence|].
    rewrite Hempty in Hp. injection Hp as <-. simpl in Hlen. lia.
  - rewrite Hcp in Hnone. apply truthy_None in Hnone as [|[= ->]]; done.
Qed.

Lemma earlier_form_needs_passwords_witness :
  ∃ issues,
    earlierHandleSubmit (λ _, true)
      (ProfileInputs.mk "Ann B." "ann@example.org" (Some "secret1") (Some "")
         (Some "")) Scenario.w
    = (Ok (Invalid issues), Scenario.w).
Proof.
  apply (earlier_form_needs_passwords (λ _, true)
           (ProfileInputs.mk "Ann B." "ann@example.org" (Some "secret1")
              (Some "") (Some "")) Scenario.w).
  left. reflexivity.
Defined.

(** *** The class card *)

(** X19.  For a user the card shows as enrolled, [handleEnrollment] is the
    unenrollment from that one occurrence, whatever flag it is called with
    and whether or not the class belongs to a series: no other document of
    the collection is changed.  The card never unenrolls from a series. *)
Theorem card_unenrolls_one_occurrence rt classData w user enrollAll :
  Store.user (World.store w) = Some user →
  User.id user ∈ Class.enrolledStudents classData →
  ClassCard.handleEnrollment rt classData enrollAll w
  = unenrollFromClass rt (Class.id classData) (User.id user) false w ∧
  ∀ k, k ≠ Class.id classData →
       World.classes (after (ClassCard.handleEnrollment rt classData enrollAll) w)
         !! k = World.classes w !! k.
Proof.
  intros Hu Hin.
  assert (ClassCard.handleEnrollment rt classData enrollAll w
          = unenrollFromClass rt (Class.id classData) (User.id user) false w)
    as Heq.
  { unfold ClassCard.handleEnrollment. run. rewrite Hu. simpl.
    by rewrite bool_decide_eq_true_2. }
  split; [done|]. intros k Hk. unfold after. rewrite Heq.
  rewrite unenrollFromClass_cascade.
  destruct (World.classes w !! Class.id classData) as [c|] eqn:Hc.
  - destruct (cascade_one rt "Error unenrolling from class:" TargetDatetime
                (MUpdate (ArrayRemove (User.id user))) (Class.id classData)
                false w c Hc) as (_ & _ & Hap); [auto|].
    unfold after in Hap. by rewrite (Hap k), decide_False.
  - destruct (cascade_absent rt "Error unenrolling from class:" TargetDatetime
                (MUpdate (ArrayRemove (User.id user))) (Class.id classData)
                false w Hc) as (_ & Hun & _).
    unfold after in Hun. by rewrite Hun.
Qed.

Lemma card_unenrolls_one_occurrence_witness :
  World.classes
    (after (ClassCard.handleEnrollment Scenario.rt
              (Class.withEnrolled (λ _, ["u1"]) Scenario.a1) true) Scenario.w)
    !! "a2" = Some Scenario.a2.
Proof.
  destruct (card_unenrolls_one_occurrence Scenario.rt
              (Class.withEnrolled (λ _, ["u1"]) Scenario.a1) Scenario.w
              Scenario.u1 true) as [_ H].
  - reflexivity.
  - apply (bool_decide_unpack _). reflexivity.
  - rewrite H; [reflexivity|discriminate].
Defined.

(** X20.  On a card whose class is no longer in the collection,
    [handleEnrollment] lets "Class not found" through to its caller, while
    [handleDelete] and [handleUpdate] swallow it: they return normally, the
    error is logged twice (by the store action and by the card) and the
    collection is unchanged. *)
Theorem stale_card rt classData w user formData flag :
  World.classes w !! Class.id classData = None →
  Store.user (World.store w) = Some user →
  outcome (ClassCard.handleEnrollment rt classData flag) w
    = Throw classNotFound ∧
  ClassCardActions.handleDelete rt classData flag w
    = (Ok tt,
       World.logConsole "Error deleting class:"
         (World.logConsole "Error deleting class:"
            (World.logCall (CGetDoc (Class.id classData)) w))) ∧
  ClassCardActions.handleUpdate rt classData user formData flag w
    = (Ok tt,
       World.logConsole "Error updating class:"
         (World.logConsole "Error updating class:"
            (World.logCall (CGetDoc (Class.id classData)) w))).
Proof.
  intros Hno Hu. split; [|split].
  - unfold outcome, ClassCard.handleEnrollment. run. rewrite Hu. simpl.
    destruct (bool_decide _).
    + rewrite unenrollFromClass_cascade.
      by destruct (cascade_absent rt "Error unenrolling from class:"
                     TargetDatetime (MUpdate (ArrayRemove (User.id user)))
                     (Class.id classData) false w Hno) as [? _].
    + rewrite enrollInClass_cascade.
      by destruct (cascade_absent rt "Error enrolling in class:"
                     TargetDatetime (MUpdate (ArrayUnion (User.id user)))
                     (Class.id classData) flag w Hno) as [? _].
  - unfold ClassCardActions.handleDelete, deleteClass. run. by rewrite Hno.
  - unfold ClassCardActions.handleUpdate, updateClass. run. by rewrite Hno.
Qed.

Lemma stale_card_witness :
  outcome (ClassCard.handleEnrollment Scenario.rt
             (Scenario.mkClass "gone" "2025-03-10T18:00:00.000Z" 8 [] None)
             false) Scenario.w
  = Throw classNotFound.
Proof.
  apply (stale_card Scenario.rt
           (Scenario.mkClass "gone" "2025-03-10T18:00:00.000Z" 8 [] None)
           Scenario.w Scenario.u1 Scenario2.form false).
  - reflexivity.
  - reflexivity.
Defined.

(** X21.  An edit made from the card with "all the coming classes" writes
    the form's single [datetime] to every class of the series from now on:
    after it those occurrences all fall on the same instant.  Each of them
    also gets the form's [maxStudents], whatever number of students it holds,
    and the editing user as teacher; its membership list and its [baseId]
    are kept. *)
Theorem card_series_edit_collapses_dates rt classData w user formData c sid :
  World.classes w !! Class.id classData = Some c →
  Class.baseId c = Some sid → sid ≠ "" →
  let now := nowISO rt (World.clock w) in
  let m' := World.classes
              (after (ClassCardActions.handleUpdate rt classData user formData
                        true) w) in
  ∀ k c', World.classes w !! k = Some c' → inSeriesFrom sid now c' →
    ∃ c'', m' !! k = Some c'' ∧
           Class.datetime c'' = ClassFormData.datetime formData ∧
           Class.maxStudents c'' = ClassFormData.maxStudents formData ∧
           Class.teacherId c'' = User.id user ∧
           Class.enrolledStudents c'' = Class.enrolledStudents c' ∧
           Class.baseId c'' = Some sid.
Proof.
  intros Hc Hb Hne now m' k c' Hk Hin. subst m'.
  set (patch := ClassCardActions.updatedClass user formData).
  destruct (cascade_all rt "Error updating class:" Now
              (MUpdate (SetFields patch)) (Class.id classData) w c sid Hc Hb Hne)
    as (Hr & _ & Hap).
  rewrite <- updateClass_cascade in Hr, Hap.
  assert (after (ClassCardActions.handleUpdate rt classData user formData true) w
          = after (updateClass rt (Class.id classData) patch true) w) as ->.
  { unfold after, outcome, ClassCardActions.handleUpdate in *. fold patch.
    destruct (updateClass rt (Class.id classData) patch true w) as [[[]|e] w'];
      simpl in *; [done|discriminate]. }
  simpl in Hap. rewrite (Hap k), Hk, decide_True by done. simpl.
  eexists; split; [done|]. destruct Hin as [Hb' _]. by repeat split.
Qed.

Lemma card_series_edit_collapses_dates_witness :
  ∃ c'',
    World.classes
      (after (ClassCardActions.handleUpdate Scenario.rt Scenario.a1
                Scenario2.tess Scenario2.form true) Scenario2.teaching)
      !! "a2" = Some c'' ∧
    Class.datetime c'' = "2025-03-24T19:00" ∧
    Class.maxStudents c'' = 8 ∧
    Class.teacherId c'' = "t1" ∧
    Class.enrolledStudents c'' = ["u2"] ∧
    Class.baseId c'' = Some "series-1".
Proof.
  apply (card_series_edit_collapses_dates Scenario.rt Scenario.a1
           Scenario2.teaching Scenario2.tess Scenario2.form Scenario.a1
           "series-1") with (c' := Scenario.a2).
  - reflexivity.
  - reflexivity.
  - discriminate.
  - reflexivity.
  - split; reflexivity.
Defined.

(** *** Session and school *)

(** X22.  [signOut] signs the account out and clears the published user and
    school, but not the published class list, and no later [fetchClasses]
    clears it either: with nobody published the refresh returns at once. *)
Theorem signOut_keeps_class_list rt w :
  let w' := after signOut w in
  outcome signOut w = Ok tt ∧
  World.currentUser w' = None ∧
  Store.user (World.store w') = None ∧
  Store.school (World.store w') = None ∧
  Store.classes (World.store w') = Store.classes (World.store w) ∧
  fetchClasses rt w' = (Ok tt, w').
Proof. simpl. repeat split. Qed.

(** The school [createSchool] builds from its argument. *)
Lemma createSchool_run rt s schoolData user :
  Store.user (World.store (Campus.world s)) = Some user →
  let ref := autoId rt (World.ids (Campus.world s)) in
  let school :=
    School.mk ref (SchoolData.name schoolData) (SchoolData.address schoolData)
      (SchoolData.email schoolData) (SchoolData.logo schoolData)
      (SchoolData.instagram schoolData) [User.id user] in
  let s1 := Campus.mk (World.nextId (Campus.world s))
              (<[ref := school]> (Campus.schools s)) in
  createSchool rt schoolData s =
  match World.users (Campus.world s) !! User.id user with
  | Some doc =>
      (Ok tt,
       Campus.withWorld
         (λ w, World.withStore
                 (λ st, Store.setUser (Some (withSchoolId ref user))
                          (setSchoolState (Some school) st))
                 (World.withUsers
                    (alter (withSchoolId ref) (User.id user) (World.users w)) w))
         s1)
  | None =>
      (Throw (FirestoreError "not-found"),
       Campus.withWorld (World.logConsole "Error creating school:") s1)
  end.
Proof.
  intros Hu. simpl.
  unfold createSchool, tryLogC, mbind, MC_bind, getUser, liftW, setSchoolDoc,
    newDocRef, updateUserSchoolDoc, modify. simpl. rewrite Hu. simpl.
  destruct (World.users (Campus.world s) !! User.id user); reflexivity.
Qed.

(** X23.  [createSchool] by a published user whose document exists stores
    the school under a newly drawn id with the creator as its only teacher,
    points the user's document and the published user to it and publishes
    it; the published class list is not refreshed.  The round trip holds:
    [fetchCurrentSchool] run next finds that same school and changes
    nothing, and [fetchSchools] lists it. *)
Theorem createSchool_founds rt s schoolData user doc :
  Store.user (World.store (Campus.world s)) = Some user →
  World.users (Campus.world s) !! User.id user = Some doc →
  autoId rt (World.ids (Campus.world s)) ≠ "" →
  let ref := autoId rt (World.ids (Campus.world s)) in
  let school :=
    School.mk ref (SchoolData.name schoolData) (SchoolData.address schoolData)
      (SchoolData.email schoolData) (SchoolData.logo schoolData)
      (SchoolData.instagram schoolData) [User.id user] in
  let s' := (createSchool rt schoolData s).2 in
  (createSchool rt schoolData s).1 = Ok tt ∧
  Campus.schools s' = <[ref := school]> (Campus.schools s) ∧
  World.users (Campus.world s') !! User.id user = Some (withSchoolId ref doc) ∧
  Store.user (World.store (Campus.world s')) = Some (withSchoolId ref user) ∧
  Store.school (World.store (Campus.world s')) = Some school ∧
  Store.classes (World.store (Campus.world s'))
    = Store.classes (World.store (Campus.world s)) ∧
  fetchCurrentSchool s' = (Ok tt, s') ∧
  ∃ l, (fetchSchools s').1 = Ok l ∧ school ∈ l.
Proof.
  intros Hu Hd Hne ref school s'. subst s'.
  rewrite (createSchool_run rt s schoolData user Hu). fold ref school.
  rewrite Hd. simpl. repeat split.
  - rewrite lookup_alter, decide_True by done. by rewrite Hd.
  - unfold fetchCurrentSchool, tryLogC, mbind, MC_bind, getUser, getSchoolDoc,
      liftW, modify. simpl.
    destruct (String.eqb_spec ref "") as [|_]; [done|]. simpl.
    rewrite lookup_insert_eq. reflexivity.
  - eexists. split; [reflexivity|]. simpl.
    apply list_elem_of_fmap. exists (ref, school). split; [done|].
    apply elem_of_map_to_list, lookup_insert_eq.
Qed.

Lemma createSchool_founds_witness :
  Store.school (World.store (Campus.world
    (createSchool Scenario.rt Scenario2.studio Scenario2.founding).2))
  = Some (School.mk "AAAAAAAAAAAAAAAAAAAA" "Studio Tom" "2 rue du Mat"
            "tom@example.org" None None ["t2"]).
Proof.
  apply (createSchool_founds Scenario.rt Scenario2.founding Scenario2.studio
           Scenario2.newcomer Scenario2.newcomer).
  - reflexivity.
  - reflexivity.
  - discriminate.
Defined.

(** X24.  [createSchool] with nobody published throws "User not
    authenticated" and changes nothing but the console.  By a published user
    whose document is missing it throws after the school has been stored:
    the school document stays in the collection with that user as teacher,
    while the published user and school are as before. *)
Theorem createSchool_failures rt s schoolData :
  match Store.user (World.store (Campus.world s)) with
  | None =>
      createSchool rt schoolData s
      = (Throw userNotAuthenticated,
         Campus.withWorld (World.logConsole "Error creating school:") s)
  | Some user =>
      World.users (Campus.world s) !! User.id user = None →
      let s' := (createSchool rt schoolData s).2 in
      (createSchool rt schoolData s).1 = Throw (FirestoreError "not-found") ∧
      (∃ school,
         Campus.schools s' !! autoId rt (World.ids (Campus.world s))
           = Some school ∧
         School.teacherIds school = [User.id user]) ∧
      World.store (Campus.world s') = World.store (Campus.world s)
  end.
Proof.
  destruct (Store.user (World.store (Campus.world s))) as [user|] eqn:Hu.
  - intros Hd s'. subst s'.
    rewrite (createSchool_run rt s schoolData user Hu), Hd. simpl.
    split; [done|]. split; [|done].
    eexists. split; [apply lookup_insert_eq|done].
  - unfold createSchool, tryLogC, mbind, MC_bind, getUser. simpl.
    by rewrite Hu.
Qed.

(** X25.  [updateUserSchool] writes [schoolId] to the named user's
    document and never changes a school document (no teacher list grows).
    When no school has that id the document now points to a missing school
    and the published state is not touched.  When the school exists, the
    published user (whoever it is, not necessarily the named user) gets the
    [schoolId] and the school is published; the class list is not
    refreshed. *)
Theorem updateUserSchool_effects s userId schoolId doc :
  World.users (Campus.world s) !! userId = Some doc →
  let s' := (updateUserSchool userId schoolId s).2 in
  (updateUserSchool userId schoolId s).1 = Ok tt ∧
  Campus.schools s' = Campus.schools s ∧
  World.users (Campus.world s') !! userId = Some (withSchoolId schoolId doc) ∧
  Store.classes (World.store (Campus.world s'))
    = Store.classes (World.store (Campus.world s)) ∧
  match Campus.schools s !! schoolId,
        Store.user (World.store (Campus.world s)) with
  | Some school, Some published =>
      Store.user (World.store (Campus.world s'))
        = Some (withSchoolId schoolId published) ∧
      Store.school (World.store (Campus.world s')) = Some school
  | _, _ => World.store (Campus.world s') = World.store (Campus.world s)
  end.
Proof.
  intros Hd. simpl.
  unfold updateUserSchool, tryLogC, mbind, MC_bind, getUser, getSchoolDoc,
    liftW, updateUserSchoolDoc, modify. simpl. rewrite Hd. simpl.
  destruct (Campus.schools s !! schoolId) as [school|]; simpl.
  - destruct (Store.user (World.store (Campus.world s))) as [published|];
      simpl; repeat split;
      rewrite lookup_alter, decide_True by done; by rewrite Hd.
  - repeat split. rewrite lookup_alter, decide_True by done. by rewrite Hd.
Qed.

Lemma updateUserSchool_effects_witness :
  Store.user (World.store (Campus.world
    (updateUserSchool "t1" "s1" (Campus.mk Scenario2.teaching
                                   (Campus.schools Scenario2.campus))).2))
  = Some (withSchoolId "s1" Scenario2.tess) ∧
  World.store (Campus.world
    (updateUserSchool "u1" "nowhere" Scenario2.campus).2)
  = World.store (Campus.world Scenario2.campus).
Proof.
  split.
  - destruct (updateUserSchool_effects
                (Campus.mk Scenario2.teaching (Campus.schools Scenario2.campus))
                "t1" "s1" Scenario2.tess) as (_ & _ & _ & _ & H);
      [reflexivity|].
    apply H.
  - destruct (updateUserSchool_effects Scenario2.campus "u1" "nowhere"
                Scenario.u1) as (_ & _ & _ & _ & H); [reflexivity|].
    apply H.
Defined.

(** X26.  The auth-state callback, called for a signed-in account that has
    no user document, changes nothing at all: [isLoading] keeps its value,
    so a store that was loading stays loading.  Called with a user document,
    it publishes the user under the account's uid and ends loading, and it
    never clears the published school: a user without a school, or whose
    school document is missing, is published beside the school that was
    published before. *)
Theorem authStateChanged_signed_in s uid :
  let s' := (authStateChanged (Some uid) s).2 in
  match World.users (Campus.world s) !! uid with
  | None => authStateChanged (Some uid) s = (Ok tt, s)
  | Some doc =>
      (∃ u, Store.user (World.store (Campus.world s')) = Some u ∧
            User.id u = uid ∧ User.schoolId u = User.schoolId doc) ∧
      Store.isLoading (World.store (Campus.world s')) = false ∧
      match truthy (User.schoolId doc) ≫= (Campus.schools s !!.) with
      | Some school =>
          Store.school (World.store (Campus.world s')) = Some school
      | None =>
          Store.school (World.store (Campus.world s'))
          = Store.school (World.store (Campus.world s))
      end
  end.
Proof.
  simpl.
  unfold authStateChanged, mbind, MC_bind, getUserDoc, liftW, modify,
    getSchoolDoc. simpl.
  destruct (World.users (Campus.world s) !! uid) as [doc|]; [|done]. simpl.
  destruct (truthy (User.schoolId doc)) as [sid|]; simpl.
  - destruct (Campus.schools s !! sid) as [school|]; simpl;
      (split; [by eexists|done]).
  - split; [by eexists|done].
Qed.
